(** * Kademlia protocol handlers (kademlia/protocol.py)

    A shallow embedding of [KademliaProtocol]: the inbound RPC handlers,
    the admission path [welcome_if_new], the response handler
    [handle_call_response] and the refresh-target picker
    [get_refresh_ids].

    The protocol object is modelled by explicit state passing, in a
    state and exception monad.  The collaborators that [protocol.py] only
    imports (the routing table, the contact class, the digest, the
    platform's text layer) are an interface or a parameter; the calls
    the protocol makes on the routing table and the store calls it hands
    to the event loop are recorded in a trace.  The [call_*] coroutines
    await the transport and pass its result to [handle_call_response];
    only the latter is modelled. *)

From Stdlib Require Import ZArith List String Ascii Bool Lia.
From Stdlib Require Import Init.Byte Strings.Byte.
From stdpp Require Import base option list sorting gmap strings.

Local Open Scope Z_scope.

(** ** Byte strings and Python values *)

Abbreviation bytes := (list byte).

#[global] Instance byte_eq_dec : EqDecision byte := Strings.Byte.byte_eq_dec.

(** [int.from_bytes(b, 'big')], also [int(b.hex(), 16)] for non-empty [b]. *)
Definition from_bytes (b : bytes) : Z :=
  fold_left (fun acc x => 256 * acc + Z.of_N (Byte.to_N x)) b 0.

Definition byte_of_Z (z : Z) : byte :=
  match Byte.of_N (Z.to_N (z mod 256)) with
  | Some b => b
  | None => x00
  end.

(** The [len] low-order base-256 digits of [n], most significant first. *)
Fixpoint digits_be (len : nat) (n : Z) : bytes :=
  match len with
  | O => []
  | S len' => digits_be len' (n / 256) ++ [byte_of_Z n]
  end.

Definition hex_digit (n : N) : ascii :=
  match n with
  | 0 => "0" | 1 => "1" | 2 => "2" | 3 => "3" | 4 => "4" | 5 => "5"
  | 6 => "6" | 7 => "7" | 8 => "8" | 9 => "9" | 10 => "a" | 11 => "b"
  | 12 => "c" | 13 => "d" | 14 => "e" | _ => "f"
  end%N%char.

(** [bytes.hex()]: two lowercase hexadecimal digits per byte. *)
Fixpoint hex (b : bytes) : string :=
  match b with
  | [] => EmptyString
  | x :: b' =>
      let n := Byte.to_N x in
      String (hex_digit (n / 16)) (String (hex_digit (n mod 16)) (hex b'))
  end.

(** The scalar values an RPC argument can carry (floats and containers
    are left out). *)
Inductive pyval :=
| VNone
| VBool (b : bool)
| VInt (z : Z)
| VStr (s : string)
| VBytes (b : bytes).

#[global] Instance pyval_eq_dec : EqDecision pyval.
Proof. solve_decision. Defined.

(** ** Contacts

    Modelled from the spec: [kademlia.node.Node] is not part of
    [protocol.py].  A contact is [{id, address (host, port)}]; [Node(key)]
    leaves the address empty; the distance of two contacts is the XOR of
    their identifiers read as unsigned big-endian integers; [tuple(node)]
    is [(id, ip, port)]. *)
Record Node := mkNode {
  id : bytes;
  ip : option string;
  port : option Z;
}.

#[global] Instance Node_eq_dec : EqDecision Node.
Proof. solve_decision. Defined.

Definition long_id (n : Node) : Z := from_bytes (id n).

Definition distance_to (a b : Node) : Z := Z.lxor (long_id a) (long_id b).

Definition node_tuple (n : Node) : bytes * option string * option Z :=
  (id n, ip n, port n).

(** The sender of a datagram: [(host, port)]. *)
Definition address := (string * Z)%type.

(** [Node(nodeid, sender[0], sender[1])] *)
Definition contact_of (sender : address) (nodeid : bytes) : Node :=
  mkNode nodeid (Some (fst sender)) (Some (snd sender)).

(** [Node(key)] *)
Definition key_node (key : bytes) : Node := mkNode key None None.

(** ** Routing table interface

    Modelled from the spec: [kademlia.routing] is not part of
    [protocol.py].  A bucket carries the range of identifiers it covers,
    its contacts in recency order and the time of its last update. *)
Record KBucket := mkKBucket {
  range : Z * Z;
  nodes : list Node;
  last_updated : Z;
}.

(** The five methods [protocol.py] calls on [self.router].
    [find_neighbors t target exclude] is
    [router.find_neighbors(target, exclude=exclude)] with the default
    count. *)
Class RoutingTable (RT : Type) := {
  is_new_node : RT -> Node -> bool;
  add_contact : RT -> Node -> RT;
  remove_contact : RT -> Node -> RT;
  find_neighbors : RT -> Node -> option Node -> list Node;
  lonely_buckets : RT -> list KBucket;
}.

(** ** Storage

    Modelled from the spec: the key/value collaborator is an associative
    store supporting get, set and iteration over [(key, value)] pairs.  It
    is kept as an insertion-ordered association list because
    [welcome_if_new] iterates it. *)
Abbreviation Storage := (list (bytes * pyval)).

Fixpoint storage_lookup (s : Storage) (key : bytes) : option pyval :=
  match s with
  | [] => None
  | (k, v) :: s' => if decide (k = key) then Some v else storage_lookup s' key
  end.

(** [storage.get(key, None)] *)
Definition storage_get (s : Storage) (key : bytes) : pyval :=
  match storage_lookup s key with
  | Some v => v
  | None => VNone
  end.

(** [storage[key] = value] *)
Definition storage_set (s : Storage) (key : bytes) (value : pyval) : Storage :=
  filter (fun kv => fst kv <> key) s ++ [(key, value)].

(** ** Events

    What the protocol asks of its collaborators: mutations of the routing
    table and store calls handed to the event loop with
    [asyncio.ensure_future].  The spawned call itself runs later and is
    not part of the handler that spawned it. *)
Inductive Event :=
| ECallStore (node : Node) (key : bytes) (value : pyval)
| EAddContact (node : Node)
| ERemoveContact (node : Node).

#[global] Instance Event_eq_dec : EqDecision Event.
Proof. solve_decision. Defined.

(** ** Exceptions and the state monad of a protocol object *)

Inductive exn :=
| TypeError
| FileNotFoundError
| ValueError
| OverflowError
| UnboundLocalError
| UnicodeDecodeError
| UnicodeEncodeError.

#[global] Instance exn_eq_dec : EqDecision exn.
Proof. solve_decision. Defined.

Inductive outcome (A : Type) :=
| Ok (a : A)
| Raise (e : exn).

Arguments Ok {A} a.
Arguments Raise {A} e.

(** The protocol object ([router], [storage], [source_node]) together
    with the part of the world its methods touch: the files below
    [data_path] (path relative to [data_path] to content), the random
    generator (an infinite supply of draws and the number consumed so
    far) and the trace of events. *)
Record State (RT : Type) := mkState {
  router : RT;
  storage : Storage;
  source_node : Node;
  files : gmap string bytes;
  rng : nat -> Z;
  rng_pos : nat;
  trace : list Event;
}.

Arguments mkState {RT}.
Arguments router {RT}.
Arguments storage {RT}.
Arguments source_node {RT}.
Arguments files {RT}.
Arguments rng {RT}.
Arguments rng_pos {RT}.
Arguments trace {RT}.

Definition M (RT A : Type) : Type := State RT -> outcome A * State RT.

Definition ret {RT A} (a : A) : M RT A := fun st => (Ok a, st).

Definition raise {RT A} (e : exn) : M RT A := fun st => (Raise e, st).

Definition bind {RT A B} (m : M RT A) (k : A -> M RT B) : M RT B :=
  fun st =>
    match m st with
    | (Ok a, st') => k a st'
    | (Raise e, st') => (Raise e, st')
    end.

(** [try: m except e: handler] *)
Definition try_except {RT A} (m : M RT A) (e : exn) (handler : M RT A) : M RT A :=
  fun st =>
    match m st with
    | (Ok a, st') => (Ok a, st')
    | (Raise e', st') => if decide (e' = e) then handler st' else (Raise e', st')
    end.

Definition gets {RT A} (f : State RT -> A) : M RT A := fun st => (Ok (f st), st).

Definition modify {RT} (f : State RT -> State RT) : M RT unit := fun st => (Ok tt, f st).

Notation "'let*' x ':=' m 'in' k" := (bind m (fun x => k))
  (at level 10, x name, m at level 100, k at level 200).
Notation "m1 >> m2" := (bind m1 (fun _ => m2))
  (at level 100, m2 at level 200, right associativity).

Definition set_router {RT} (r : RT) (st : State RT) : State RT :=
  mkState r (storage st) (source_node st) (files st) (rng st) (rng_pos st) (trace st).

Definition set_storage {RT} (s : Storage) (st : State RT) : State RT :=
  mkState (router st) s (source_node st) (files st) (rng st) (rng_pos st) (trace st).

Definition set_files {RT} (f : gmap string bytes) (st : State RT) : State RT :=
  mkState (router st) (storage st) (source_node st) f (rng st) (rng_pos st) (trace st).

Definition set_rng_pos {RT} (p : nat) (st : State RT) : State RT :=
  mkState (router st) (storage st) (source_node st) (files st) (rng st) p (trace st).

Definition set_trace {RT} (t : list Event) (st : State RT) : State RT :=
  mkState (router st) (storage st) (source_node st) (files st) (rng st) (rng_pos st) t.

Definition emit {RT} (e : Event) : M RT unit :=
  modify (fun st => set_trace (trace st ++ [e]) st).

(** A [for] loop over [items] whose body may rebind the locals [L]. *)
Fixpoint for_each {RT A L} (items : list A) (body : A -> L -> M RT L) (l : L) : M RT L :=
  match items with
  | [] => ret l
  | x :: items' => let* l' := body x l in for_each items' body l'
  end.

(** A local variable that is read before any assignment. *)
Definition read_local {RT A} (v : option A) : M RT A :=
  match v with
  | Some a => ret a
  | None => raise UnboundLocalError
  end.

(** ** Files below [data_path]

    [files_path] is [data_path/files]; a path is written relative to
    [data_path].  Both directories exist ([touch_dir] in [__init__]). *)

Definition kad_path (key : bytes) : string := "files/" +:+ hex key +:+ ".kad".

Definition txt_path (key : bytes) : string := hex key +:+ ".txt".

(** What an RPC handler sends back. *)
Inductive reply :=
| RValue (value : pyval)
| RNodes (neighbors : list (bytes * option string * option Z)).

(** [int(b.hex(), 16)]: the empty string is not a number. *)
Definition int_of_hex {RT} (b : bytes) : M RT Z :=
  match b with
  | [] => raise ValueError
  | _ => ret (from_bytes b)
  end.

(** [random.randint(a, b)]: one draw, reduced into [a..b]. *)
Definition randint {RT} (a b : Z) : M RT Z :=
  if a <=? b then
    let* r := gets (fun st => rng st (rng_pos st)) in
    modify (fun st => set_rng_pos (S (rng_pos st)) st) >>
    ret (a + r mod (b - a + 1))
  else raise ValueError.

(** [n.to_bytes(len, byteorder='big')] *)
Definition to_bytes {RT} (n : Z) (len : nat) : M RT bytes :=
  if (n <? 0) || (256 ^ Z.of_nat len <=? n) then raise OverflowError
  else ret (digits_be len n).

Section Protocol.

Context {RT : Type} `{RoutingTable RT}.

(** [kademlia.utils.digest] and the platform's text layer (what
    [f.write(s)] leaves in a file opened with ["w"], what [f.read()]
    makes of a file opened with ["r"]) are parameters.  Either
    direction of the text layer fails on what the platform's encoding
    does not cover. *)
Variable digest : bytes -> bytes.
Variable text_encode : string -> option bytes.
Variable text_decode : bytes -> option string.

Abbreviation Proto := (M RT).

(** *** File primitives *)

(** [with open(path, "wb") as f: f.write(value)] *)
Definition write_binary (path : string) (value : pyval) : Proto unit :=
  modify (fun st => set_files (<[path := []]> (files st)) st) >>
  match value with
  | VBytes b => modify (fun st => set_files (<[path := b]> (files st)) st)
  | _ => raise TypeError
  end.

(** [with open(path, "w") as f: f.write(value)]: the text is encoded as
    a whole before anything is written. *)
Definition write_text (path : string) (value : pyval) : Proto unit :=
  modify (fun st => set_files (<[path := []]> (files st)) st) >>
  match value with
  | VStr s =>
      match text_encode s with
      | Some content =>
          modify (fun st => set_files (<[path := content]> (files st)) st)
      | None => raise UnicodeEncodeError
      end
  | _ => raise TypeError
  end.

(** [os.remove(path)] *)
Definition os_remove (path : string) : Proto unit :=
  let* fs := gets files in
  match fs !! path with
  | Some _ => modify (fun st => set_files (delete path (files st)) st)
  | None => raise FileNotFoundError
  end.

(** [with open(path, "rb") as f: return {'value': f.read()}] *)
Definition read_binary (path : string) : Proto reply :=
  let* fs := gets files in
  match fs !! path with
  | Some content => ret (RValue (VBytes content))
  | None => raise FileNotFoundError
  end.

(** [with open(path, "r") as f: return {'value': f.read()}] *)
Definition read_text (path : string) : Proto reply :=
  let* fs := gets files in
  match fs !! path with
  | Some content =>
      match text_decode content with
      | Some s => ret (RValue (VStr s))
      | None => raise UnicodeDecodeError
      end
  | None => raise FileNotFoundError
  end.

(** *** Calls on the collaborators *)

(** [self.router.add_contact(node)] *)
Definition router_add_contact (node : Node) : Proto unit :=
  modify (fun st => set_router (add_contact (router st) node) st) >>
  emit (EAddContact node).

(** [self.router.remove_contact(node)] *)
Definition router_remove_contact (node : Node) : Proto unit :=
  modify (fun st => set_router (remove_contact (router st) node) st) >>
  emit (ERemoveContact node).

(** [asyncio.ensure_future(self.call_store(node, key, value))] *)
Definition ensure_future_call_store (node : Node) (key : bytes) (value : pyval)
  : Proto unit :=
  emit (ECallStore node key value).

(** *** Admission: [welcome_if_new] *)

(** The two locals of the loop that are assigned only when the
    neighbour list is not empty. *)
Record locals := mkLocals {
  new_node_close : option bool;
  this_closest : option bool;
}.

Definition welcome_key (node : Node) (kv : bytes * pyval) (loc : locals)
  : Proto locals :=
  let key := fst kv in
  let value := snd kv in
  let keynode := key_node (digest key) in
  let* neighbors := gets (fun st => find_neighbors (router st) keynode None) in
  let* loc' :=
    match neighbors with
    | [] => ret loc
    | first_n :: _ =>
        let last := distance_to (List.last neighbors first_n) keynode in
        let nnc := distance_to node keynode <? last in
        let first := distance_to first_n keynode in
        let* src := gets source_node in
        let tc := distance_to src keynode <? first in
        ret (mkLocals (Some nnc) (Some tc))
    end in
  let* go :=
    match neighbors with
    | [] => ret true
    | _ :: _ =>
        let* a := read_local (new_node_close loc') in
        if a then read_local (this_closest loc') else ret false
    end in
  (if go then ensure_future_call_store node key value else ret tt) >>
  ret loc'.

Definition welcome_if_new (node : Node) : Proto unit :=
  let* new := gets (fun st => is_new_node (router st) node) in
  if negb new then ret tt
  else
    let* items := gets storage in
    for_each items (welcome_key node) (mkLocals None None) >>
    router_add_contact node.

(** *** Response handling *)

Definition handle_call_response {P : Type} (result : bool * P) (node : Node)
  : Proto (bool * P) :=
  if negb (fst result) then
    router_remove_contact node >>
    ret result
  else
    welcome_if_new node >>
    ret result.

(** *** Inbound RPC handlers *)

(** A static method: it is handed the sender address only. *)
Definition rpc_stun (sender : address) : Proto address := ret sender.

Definition rpc_ping (sender : address) (nodeid : bytes) : Proto bytes :=
  let source := contact_of sender nodeid in
  welcome_if_new source >>
  let* me := gets source_node in
  ret (id me).

Definition rpc_store (sender : address) (nodeid key : bytes) (value : pyval)
  : Proto bool :=
  let source := contact_of sender nodeid in
  welcome_if_new source >>
  modify (fun st => set_storage (storage_set (storage st) key value) st) >>
  ret true.

(** The [try] statement of [rpc_file_store]. *)
Definition file_store_try (key : bytes) (value : pyval) : Proto unit :=
  try_except
    (write_binary (kad_path key) value)
    TypeError
    (os_remove (kad_path key) >>
     write_text (txt_path key) value).

Definition rpc_file_store (sender : address) (node_id key : bytes) (value : pyval)
  : Proto bool :=
  let source := contact_of sender node_id in
  welcome_if_new source >>
  file_store_try key value >>
  ret true.

(** The [try] statement of [rpc_find_file]. *)
Definition find_file_try (key : bytes) : Proto reply :=
  try_except
    (read_binary (kad_path key))
    FileNotFoundError
    (try_except
       (read_text (txt_path key))
       FileNotFoundError
       (ret (RValue VNone))).

Definition rpc_find_file (sender : address) (node_id key : bytes) : Proto reply :=
  let source := contact_of sender node_id in
  welcome_if_new source >>
  find_file_try key.

Definition rpc_find_node (sender : address) (nodeid key : bytes) : Proto reply :=
  int_of_hex nodeid >>
  let source := contact_of sender nodeid in
  welcome_if_new source >>
  let node := key_node key in
  let* neighbors :=
    gets (fun st => find_neighbors (router st) node (Some source)) in
  ret (RNodes (map node_tuple neighbors)).

Definition rpc_find_value (sender : address) (nodeid key : bytes) : Proto reply :=
  let source := contact_of sender nodeid in
  welcome_if_new source >>
  let* value := gets (fun st => storage_get (storage st) key) in
  match value with
  | VNone => rpc_find_node sender nodeid key
  | _ => ret (RValue value)
  end.

(** *** Refresh targets *)

Definition get_refresh_ids : Proto (list bytes) :=
  let* buckets := gets (fun st => lonely_buckets (router st)) in
  for_each buckets
    (fun bucket ids =>
       let* n := randint (fst (range bucket)) (snd (range bucket)) in
       let* rid := to_bytes n 20 in
       ret (ids ++ [rid]))
    [].

End Protocol.

Arguments welcome_if_new {RT _} digest node.
Arguments welcome_key {RT _} digest node kv loc.
Arguments handle_call_response {RT _} digest {P} result node.
Arguments rpc_stun {RT} sender.
Arguments rpc_ping {RT _} digest sender nodeid.
Arguments rpc_store {RT _} digest sender nodeid key value.
Arguments rpc_file_store {RT _} digest text_encode sender node_id key value.
Arguments rpc_find_file {RT _} digest text_decode sender node_id key.
Arguments rpc_find_node {RT _} digest sender nodeid key.
Arguments rpc_find_value {RT _} digest sender nodeid key.
Arguments get_refresh_ids {RT _}.

(** * Vocabulary of the properties *)

(** [a] is at most as far from [target] as [b]. *)
Definition closer_eq (target a b : Node) : Prop :=
  distance_to a target <= distance_to b target.

#[global] Instance closer_eq_dec (target : Node) : RelDecision (closer_eq target).
Proof. intros a b. unfold closer_eq. apply _. Defined.

(** A list of contacts in ascending order of distance to [target], as
    [find_neighbors] is to return it. *)
Definition ascending (target : Node) (l : list Node) : Prop :=
  StronglySorted (closer_eq target) l.

Definition nearest_of (target : Node) (l : list Node) (n : Node) : Prop :=
  In n l /\ forall m, In m l -> closer_eq target n m.


(** The state with [evs] appended to its trace. *)
Definition add_trace {RT} (evs : list Event) (st : State RT) : State RT :=
  set_trace (trace st ++ evs) st.

Section Vocabulary.

Context {RT : Type} `{RoutingTable RT}.
Variable digest : bytes -> bytes.
Variable text_encode : string -> option bytes.
Variable text_decode : bytes -> option string.

(** The replication decision of one loop iteration, as a function of
    the routing table, the local node, the newcomer and the key. *)
Definition selected (rt : RT) (me node : Node) (key : bytes) : bool :=
  let keynode := key_node (digest key) in
  match find_neighbors rt keynode None with
  | [] => true
  | first_n :: rest =>
      (distance_to node keynode <? distance_to (List.last (first_n :: rest) first_n) keynode)
      && (distance_to me keynode <? distance_to first_n keynode)
  end.

(** The store calls one pass over the store hands to the event loop. *)
Definition store_calls (rt : RT) (me node : Node) (items : Storage) : list Event :=
  map (fun kv => ECallStore node (fst kv) (snd kv))
      (List.filter (fun kv => selected rt me node (fst kv)) items).

(** The events [welcome_if_new node] adds to the trace. *)
Definition admission_events (node : Node) (st : State RT) : list Event :=
  if is_new_node (router st) node then
    store_calls (router st) (source_node st) node (storage st)
    ++ [EAddContact node]
  else [].

(** The state in which [welcome_if_new node] leaves the protocol. *)
Definition admitted (node : Node) (st : State RT) : State RT :=
  if is_new_node (router st) node then
    set_router (add_contact (router st) node)
      (add_trace (store_calls (router st) (source_node st) node (storage st)
                  ++ [EAddContact node]) st)
  else st.



(** A byte string, or a text that the text layer reads back as it was
    written. *)
Definition storable (value : pyval) : Prop :=
  match value with
  | VBytes _ => True
  | VStr s =>
      match text_encode s with
      | Some content => text_decode content = Some s
      | None => False
      end
  | _ => False
  end.

End Vocabulary.

(** A bucket range inside the 160-bit identifier space. *)
Definition valid_range (b : KBucket) : Prop :=
  0 <= fst (range b) /\ fst (range b) <= snd (range b) /\ snd (range b) < 2 ^ 160.

(** [rid] is the 20-byte big-endian form of an identifier of the range
    of [b]. *)
Definition in_range_of (b : KBucket) (rid : bytes) : Prop :=
  length rid = 20%nat /\ fst (range b) <= from_bytes rid <= snd (range b).

(** ** A flat routing table

    Modelled from the spec: [kademlia.routing.RoutingTable] is not part
    of [protocol.py].  This table keeps its contacts in one list in
    recency order: [is_new_node] is true iff no contact with this id is
    in the table; [add_contact] inserts the contact or moves it to the
    most-recently-seen position; [remove_contact] removes by id;
    [find_neighbors] returns up to [k] contacts sorted ascending by
    distance to the target, excluding the given contact; the lonely
    buckets are those last updated more than an hour ago.  It serves to
    run the handlers on concrete inputs. *)
Module Flat.

Record Table := mkTable {
  ksize : nat;
  contacts : list Node;
  buckets : list KBucket;
  now : Z;
}.

Definition same_id (a b : Node) : bool := bool_decide (id a = id b).

Definition is_new (t : Table) (n : Node) : bool :=
  negb (existsb (same_id n) (contacts t)).

Definition without (n : Node) (l : list Node) : list Node :=
  List.filter (fun c => negb (same_id n c)) l.

Definition add (t : Table) (n : Node) : Table :=
  mkTable (ksize t) (without n (contacts t) ++ [n]) (buckets t) (now t).

Definition remove (t : Table) (n : Node) : Table :=
  mkTable (ksize t) (without n (contacts t)) (buckets t) (now t).

Definition neighbors (t : Table) (target : Node) (exclude : option Node)
  : list Node :=
  let candidates :=
    match exclude with
    | Some x => without x (contacts t)
    | None => contacts t
    end in
  take (ksize t) (merge_sort (closer_eq target) candidates).

Definition lonely (t : Table) : list KBucket :=
  List.filter (fun b => last_updated b <? now t - 3600) (buckets t).

#[global] Instance routing : RoutingTable Table := {
  is_new_node := is_new;
  add_contact := add;
  remove_contact := remove;
  find_neighbors := neighbors;
  lonely_buckets := lonely;
}.

(** A small network of one-byte identifiers, with the identity as
    digest. *)
Definition node (i : byte) (p : Z) : Node := mkNode [i] (Some "10.0.0.1"%string) (Some p).

Definition digest (key : bytes) : bytes := key.

(** The text layer of a POSIX platform with the ASCII encoding: a text
    of ASCII characters is written as it is ([os.linesep] is the line
    feed), and read with universal newlines, a carriage return or a
    carriage return and line feed becoming one line feed; a character
    or a byte above 127 makes the write or the read fail. *)
Definition CR : ascii := "013"%char.
Definition LF : ascii := "010"%char.

Fixpoint universal_newlines (s : string) : string :=
  match s with
  | EmptyString => EmptyString
  | String c s' =>
      if Ascii.eqb c CR then
        match s' with
        | String c' _ =>
            if Ascii.eqb c' LF then universal_newlines s'
            else String LF (universal_newlines s')
        | EmptyString => String LF EmptyString
        end
      else String c (universal_newlines s')
  end.

Definition is_ascii (b : bytes) : bool :=
  forallb (fun x => (Byte.to_N x <? 128)%N) b.

Definition text_encode (s : string) : option bytes :=
  if is_ascii (list_byte_of_string s) then Some (list_byte_of_string s) else None.

Definition text_decode (b : bytes) : option string :=
  if is_ascii b then Some (universal_newlines (string_of_list_byte b)) else None.

Definition me : Node := node x11 8468.
Definition peer : Node := node x14 8469.
Definition newcomer : Node := node x12 8470.
Definition newcomer_addr : address := ("10.0.0.1"%string, 8470).

Definition sample_storage : Storage :=
  [([x10], VBytes [x61]); ([x15], VBytes [x62])].

Definition state_of (cs : list Node) (bs : list KBucket) (s : Storage)
  : State Table :=
  mkState (mkTable 20 cs bs 10000) s me ∅ (fun i => Z.of_nat i * 7919 + 5) 0 [].

(** Nobody known yet. *)
Definition lone_state : State Table := state_of [] [] sample_storage.

(** One peer known. *)
Definition peer_state : State Table := state_of [peer] [] sample_storage.

(** Two peers known, [peer] seen before [other]. *)
Definition other : Node := node x18 8471.
Definition two_peer_state : State Table := state_of [peer; other] [] sample_storage.

(** Two buckets, both stale. *)
Definition stale_state : State Table :=
  state_of [peer] [mkKBucket (0, 127) [] 100; mkKBucket (128, 255) [peer] 200] [].

(** A key stored with the value [None]. *)
Definition none_state : State Table := state_of [] [] [([x10], VNone)].

End Flat.

(** ** Vocabulary of the further properties *)

(** The store call that pushes the entry [kv] of the store to [node]. *)
Definition call_of (node : Node) (kv : bytes * pyval) : Event :=
  ECallStore node (fst kv) (snd kv).

(** An event of an admission of [source] out of the store [items]: a
    store call to [source] for an entry of [items], or [add_contact]. *)
Definition admission_event (source : Node) (items : Storage) (e : Event) : Prop :=
  e = EAddContact source \/ exists kv, In kv items /\ e = call_of source kv.

(** [st'] has the store, the files, the local node and the random
    generator of [st]. *)
Definition same_data {RT} (st st' : State RT) : Prop :=
  storage st' = storage st /\ files st' = files st /\
  source_node st' = source_node st /\
  rng st' = rng st /\ rng_pos st' = rng_pos st.


(** The values an RPC argument can carry: the integers of the wire
    format have 64 bits. *)
Definition carried (value : pyval) : Prop :=
  match value with
  | VInt z => - 2 ^ 63 <= z < 2 ^ 64
  | _ => True
  end.

(** A text of one character above 127, which the ASCII platform of the
    flat example cannot encode. *)
Definition e_acute : string := String "233"%char EmptyString.

(** The identifier [get_refresh_ids] makes of one draw for a bucket. *)
Definition refresh_id (b : KBucket) (draw : Z) : bytes :=
  digits_be 20
    (fst (range b) + draw mod (snd (range b) - fst (range b) + 1)).

(** The identifiers made of the draws from position [pos] on. *)
Fixpoint refresh_ids (draws : nat -> Z) (pos : nat) (buckets : list KBucket)
  : list bytes :=
  match buckets with
  | [] => []
  | b :: buckets' => refresh_id b (draws pos) :: refresh_ids draws (S pos) buckets'
  end.

(** [st'] is [st] after admissions of [source]: the trace has grown by
    store calls to [source] for entries of the store of [st] and by
    [add_contact source], and by nothing else. *)
Definition only_admits {RT} (source : Node) (st st' : State RT) : Prop :=
  exists evs,
    trace st' = trace st ++ evs /\
    forall e, In e evs -> admission_event source (storage st) e.

(** A state of the flat example with a bucket whose range is empty, and
    one whose only bucket reaches [2 ^ 160] and whose first draw is
    [2 ^ 160]. *)
Definition empty_range_state : State Flat.Table :=
  Flat.state_of [] [mkKBucket (0, 127) [] 100; mkKBucket (9, 3) [] 200;
                    mkKBucket (128, 255) [] 300] [].

Definition wide_range_state : State Flat.Table :=
  mkState (Flat.mkTable 20 [] [mkKBucket (0, 2 ^ 160) [] 100] 10000)
    [] Flat.me ∅ (fun _ => 2 ^ 160) 0 [].

(** * Properties *)

(** ** Integers and byte strings *)

Lemma byte_of_Z_value (z : Z) : Z.of_N (Byte.to_N (byte_of_Z z)) = z mod 256.
Proof.
  unfold byte_of_Z.
  assert (Hb : 0 <= z mod 256 < 256) by (apply Z.mod_pos_bound; lia).
  destruct (Byte.of_N (Z.to_N (z mod 256))) as [b|] eqn:E.
  - apply Byte.to_of_N in E. rewrite E. apply Z2N.id. lia.
  - apply Byte.of_N_None_iff in E. lia.
Qed.

Lemma from_bytes_snoc (b : bytes) (x : byte) :
  from_bytes (b ++ [x]) = 256 * from_bytes b + Z.of_N (Byte.to_N x).
Proof. unfold from_bytes. rewrite fold_left_app. reflexivity. Qed.

Lemma length_digits_be (len : nat) (n : Z) : length (digits_be len n) = len.
Proof.
  revert n. induction len as [|len IH]; intros n; simpl; [reflexivity|].
  rewrite length_app, IH. simpl. lia.
Qed.

Lemma from_bytes_digits_be (len : nat) (n : Z) :
  from_bytes (digits_be len n) = n mod 256 ^ Z.of_nat len.
Proof.
  revert n. induction len as [|len IH]; intros n.
  - simpl. rewrite Z.mod_1_r. reflexivity.
  - cbn [digits_be]. rewrite from_bytes_snoc, IH, byte_of_Z_value.
    rewrite Nat2Z.inj_succ, Z.pow_succ_r by lia.
    assert (Hpos : 0 < 256 ^ Z.of_nat len) by (apply Z.pow_pos_nonneg; lia).
    rewrite Z.rem_mul_r by lia. lia.
Qed.

(** [to_bytes] followed by [int.from_bytes] is the identity on the
    integers that fit. *)
Lemma from_bytes_digits_be_fits (len : nat) (n : Z) :
  0 <= n < 256 ^ Z.of_nat len -> from_bytes (digits_be len n) = n.
Proof. intros Hn. rewrite from_bytes_digits_be. apply Z.mod_small. exact Hn. Qed.

(** ** The state monad *)

Lemma add_trace_nil {RT} (st : State RT) : add_trace [] st = st.
Proof. destruct st. unfold add_trace, set_trace. simpl. rewrite app_nil_r. reflexivity. Qed.

Lemma add_trace_add_trace {RT} (e1 e2 : list Event) (st : State RT) :
  add_trace e2 (add_trace e1 st) = add_trace (e1 ++ e2) st.
Proof. unfold add_trace, set_trace. simpl. rewrite app_assoc. reflexivity. Qed.

Lemma last_cons_default {A} (x : A) (l : list A) :
  last (x :: l) = Some (List.last (x :: l) x).
Proof.
  generalize x at 3. revert x.
  induction l as [|y l IH]; intros x d; [reflexivity|].
  change (last (x :: y :: l)) with (last (y :: l)).
  change (List.last (x :: y :: l) d) with (List.last (y :: l) d).
  apply IH.
Qed.

(** ** Paths *)

Lemma string_length_app (s1 s2 : string) :
  String.length (s1 +:+ s2) = (String.length s1 + String.length s2)%nat.
Proof. induction s1 as [|c s1 IH]; simpl; [reflexivity|]. rewrite IH. reflexivity. Qed.

(** The binary path and the text path of a key are different files. *)
Lemma kad_path_neq_txt_path (key : bytes) : kad_path key <> txt_path key.
Proof.
  intros Heq. apply (f_equal String.length) in Heq.
  unfold kad_path, txt_path in Heq. rewrite !string_length_app in Heq.
  simpl in Heq. lia.
Qed.

(** ** Universal newlines *)

(** A text without carriage returns is read back as it was written. *)
Lemma universal_newlines_no_cr (s : string) :
  (forall c, In c (list_ascii_of_string s) -> c <> Flat.CR) ->
  Flat.universal_newlines s = s.
Proof.
  induction s as [|c s IH]; intros Hcr; [reflexivity|].
  cbn [Flat.universal_newlines].
  destruct (Ascii.eqb_spec c Flat.CR) as [-> | _].
  - exfalso. apply (Hcr Flat.CR); [left; reflexivity | reflexivity].
  - rewrite IH; [reflexivity|]. intros c' Hin. apply Hcr. right. exact Hin.
Qed.

Lemma flat_text_storable (s : string) :
  Flat.is_ascii (list_byte_of_string s) = true ->
  (forall c, In c (list_ascii_of_string s) -> c <> Flat.CR) ->
  storable Flat.text_encode Flat.text_decode (VStr s).
Proof.
  intros Hascii Hcr. unfold storable, Flat.text_decode, Flat.text_encode.
  rewrite Hascii, Hascii.
  rewrite string_of_list_byte_of_string, universal_newlines_no_cr by exact Hcr.
  reflexivity.
Qed.

(** ** Random draws and byte encoding *)

Lemma randint_run {RT} (a b : Z) (st : State RT) :
  a <= b ->
  randint a b st =
    (Ok (a + rng st (rng_pos st) mod (b - a + 1)), set_rng_pos (S (rng_pos st)) st) /\
  a <= a + rng st (rng_pos st) mod (b - a + 1) <= b.
Proof.
  intros Hab. unfold randint. apply Z.leb_le in Hab as Hab'. rewrite Hab'.
  split; [reflexivity|].
  pose proof (Z.mod_pos_bound (rng st (rng_pos st)) (b - a + 1)). lia.
Qed.

(** Every identifier of the range can be drawn. *)
Lemma randint_any {RT} (a b n : Z) (st : State RT) :
  a <= n <= b -> rng st (rng_pos st) = n - a -> fst (randint a b st) = Ok n.
Proof.
  intros Hn Hdraw. destruct (randint_run a b st) as [-> _]; [lia|].
  cbn [fst]. rewrite Hdraw, Z.mod_small by lia. f_equal. lia.
Qed.

Lemma to_bytes_run {RT} (n : Z) (len : nat) (st : State RT) :
  0 <= n < 256 ^ Z.of_nat len -> to_bytes n len st = (Ok (digits_be len n), st).
Proof.
  intros [Hlo Hhi]. unfold to_bytes.
  apply Z.ltb_ge in Hlo. apply Z.leb_gt in Hhi. rewrite Hlo, Hhi. reflexivity.
Qed.

(** ** Ascending neighbour lists *)

#[global] Instance closer_eq_trans (target : Node) : Transitive (closer_eq target).
Proof. intros a b c. unfold closer_eq. lia. Qed.

#[global] Instance closer_eq_total (target : Node) : Total (closer_eq target).
Proof. intros a b. unfold closer_eq. lia. Qed.

Lemma ascending_head (target n0 : Node) (rest : list Node) :
  ascending target (n0 :: rest) -> nearest_of target (n0 :: rest) n0.
Proof.
  intros Hasc. apply StronglySorted_inv in Hasc as [_ Hall].
  split; [left; reflexivity|]. intros m [<- | Hin].
  - unfold closer_eq. lia.
  - rewrite Forall_forall in Hall. apply Hall, list_elem_of_In, Hin.
Qed.



(** The flat table returns its neighbours in ascending order. *)
Lemma flat_neighbors_ascending (t : Flat.Table) (target : Node)
      (exclude : option Node) :
  ascending target (find_neighbors t target exclude).
Proof.
  unfold ascending. cbn. unfold Flat.neighbors.
  set (sorted := merge_sort (closer_eq target) _).
  assert (Hs : StronglySorted (closer_eq target) sorted)
    by apply (StronglySorted_merge_sort _).
  rewrite <- (take_drop (Flat.ksize t) sorted) in Hs.
  apply StronglySorted_app_1_l in Hs. exact Hs.
Qed.

(** ** Admission and the handlers *)

Section Facts.

Context {RT : Type} `{RoutingTable RT}.
Variable digest : bytes -> bytes.
Variable text_encode : string -> option bytes.
Variable text_decode : bytes -> option string.

(** One iteration never reads an unassigned local, whatever the
    previous iteration left behind. *)
Lemma welcome_key_run (node : Node) (kv : bytes * pyval) (loc : locals)
      (st : State RT) :
  exists loc',
    welcome_key digest node kv loc st =
      (Ok loc',
       add_trace (if selected digest (router st) (source_node st) node (fst kv)
                  then [ECallStore node (fst kv) (snd kv)] else []) st).
Proof.
  unfold welcome_key, selected, bind, gets. cbn beta iota.
  destruct (find_neighbors (router st) (key_node (digest (fst kv))) None)
    as [|first_n rest] eqn:Hn.
  - exists loc. reflexivity.
  - cbn -[List.last Z.ltb distance_to].
    destruct (distance_to node _ <? _); cbn -[List.last Z.ltb distance_to].
    + destruct (distance_to (source_node st) _ <? _); cbn.
      * eexists. reflexivity.
      * eexists. rewrite add_trace_nil. reflexivity.
    + eexists. rewrite add_trace_nil. reflexivity.
Qed.

Lemma for_each_welcome_key (node : Node) (items : Storage) (loc : locals)
      (st : State RT) :
  exists loc',
    for_each items (welcome_key digest node) loc st =
      (Ok loc', add_trace (store_calls digest (router st) (source_node st) node items) st).
Proof.
  revert loc st. induction items as [|kv items IH]; intros loc st.
  - exists loc. cbn. rewrite add_trace_nil. reflexivity.
  - cbn [for_each]. unfold bind at 1.
    destruct (welcome_key_run node kv loc st) as [loc1 ->].
    destruct (IH loc1 (add_trace
      (if selected digest (router st) (source_node st) node (fst kv)
       then [ECallStore node (fst kv) (snd kv)] else []) st)) as [loc2 ->].
    exists loc2. f_equal. rewrite add_trace_add_trace.
    unfold store_calls. cbn [List.filter router source_node add_trace set_trace].
    destruct (selected digest (router st) (source_node st) node (fst kv)); reflexivity.
Qed.

(** [welcome_if_new] always returns, and leaves the state [admitted]. *)
Lemma welcome_if_new_run (node : Node) (st : State RT) :
  welcome_if_new digest node st = (Ok tt, admitted digest node st).
Proof.
  unfold welcome_if_new, admitted, bind at 1, gets at 1.
  destruct (is_new_node (router st) node); cbn [negb]; [|reflexivity].
  unfold bind at 1, gets at 1. unfold bind at 1.
  destruct (for_each_welcome_key node (storage st) (mkLocals None None) st)
    as [loc ->].
  unfold router_add_contact, emit, modify, bind. f_equal.
  unfold add_trace, set_trace, set_router. cbn. rewrite app_assoc. reflexivity.
Qed.

Lemma admitted_storage node st : storage (admitted digest node st) = storage st.
Proof. unfold admitted. destruct (is_new_node _ _); reflexivity. Qed.

Lemma admitted_files node st : files (admitted digest node st) = files st.
Proof. unfold admitted. destruct (is_new_node _ _); reflexivity. Qed.

Lemma admitted_source_node node st : source_node (admitted digest node st) = source_node st.
Proof. unfold admitted. destruct (is_new_node _ _); reflexivity. Qed.

(** What follows a call of [welcome_if_new] runs in the admitted state. *)
Lemma welcome_then {A} (node : Node) (rest : M RT A) (st : State RT) :
  (welcome_if_new digest node >> rest) st = rest (admitted digest node st).
Proof. unfold bind. rewrite welcome_if_new_run. reflexivity. Qed.



Lemma in_store_calls (rt : RT) (me node : Node) (items : Storage) (e : Event) :
  In e (store_calls digest rt me node items) <->
  exists key value,
    e = ECallStore node key value /\ In (key, value) items /\
    selected digest rt me node key = true.
Proof.
  unfold store_calls. rewrite in_map_iff. split.
  - intros ([key value] & <- & Hin). apply filter_In in Hin as [Hin Hsel].
    exists key, value. auto.
  - intros (key & value & -> & Hin & Hsel). exists (key, value).
    split; [reflexivity|]. apply filter_In. auto.
Qed.

Lemma admitted_trace (node : Node) (st : State RT) :
  trace (admitted digest node st) = trace st ++ admission_events digest node st.
Proof.
  unfold admitted, admission_events.
  destruct (is_new_node (router st) node); cbn; [reflexivity|].
  rewrite app_nil_r. reflexivity.
Qed.

Lemma admitted_router (node : Node) (st : State RT) :
  router (admitted digest node st) =
    if is_new_node (router st) node then add_contact (router st) node
    else router st.
Proof. unfold admitted. destruct (is_new_node (router st) node); reflexivity. Qed.

Lemma admission_events_no_removal (node n : Node) (st : State RT) :
  ~ In (ERemoveContact n) (admission_events digest node st).
Proof.
  unfold admission_events. destruct (is_new_node (router st) node); [|intros []].
  rewrite in_app_iff. intros [Hin | [Heq | []]]; [|discriminate].
  apply in_store_calls in Hin as (k & v & Heq & _). discriminate.
Qed.

(** A contact that is known is admitted without effect. *)
Lemma admitted_known (node : Node) (st : State RT) :
  is_new_node (router st) node = false -> admitted digest node st = st.
Proof. intros Hk. unfold admitted. rewrite Hk. reflexivity. Qed.

Lemma rpc_find_node_run (sender : address) (nodeid key : bytes) (st : State RT) :
  rpc_find_node digest sender nodeid key st =
    match nodeid with
    | [] => (Raise ValueError, st)
    | _ :: _ =>
        let source := contact_of sender nodeid in
        let st1 := admitted digest source st in
        (Ok (RNodes (map node_tuple
                       (find_neighbors (router st1) (key_node key) (Some source)))),
         st1)
    end.
Proof.
  unfold rpc_find_node. destruct nodeid as [|b nodeid]; [reflexivity|].
  unfold bind at 1. cbn [int_of_hex ret]. rewrite welcome_then. reflexivity.
Qed.

Lemma rpc_find_value_run (sender : address) (nodeid key : bytes) (st : State RT) :
  rpc_find_value digest sender nodeid key st =
    let st1 := admitted digest (contact_of sender nodeid) st in
    match storage_get (storage st) key with
    | VNone => rpc_find_node digest sender nodeid key st1
    | v => (Ok (RValue v), st1)
    end.
Proof.
  unfold rpc_find_value. rewrite welcome_then.
  unfold bind, gets. rewrite admitted_storage.
  destruct (storage_get (storage st) key); reflexivity.
Qed.

(** The reply of [rpc_find_node] depends on the routing table only. *)
Lemma rpc_find_node_reply (sender : address) (nodeid key : bytes)
      (st st' : State RT) :
  router st = router st' ->
  fst (rpc_find_node digest sender nodeid key st)
    = fst (rpc_find_node digest sender nodeid key st').
Proof.
  intros Hr. rewrite !rpc_find_node_run. destruct nodeid; [reflexivity|].
  cbn [fst]. rewrite !admitted_router, Hr. reflexivity.
Qed.

Lemma find_file_try_run (key : bytes) (st : State RT) :
  find_file_try text_decode key st =
    (match files st !! kad_path key with
     | Some content => Ok (RValue (VBytes content))
     | None =>
         match files st !! txt_path key with
         | Some content =>
             match text_decode content with
             | Some s => Ok (RValue (VStr s))
             | None => Raise UnicodeDecodeError
             end
         | None => Ok (RValue VNone)
         end
     end, st).
Proof.
  unfold find_file_try, try_except, read_binary, read_text, bind, gets.
  destruct (files st !! kad_path key); [reflexivity|]. cbn.
  destruct (files st !! txt_path key) as [content|]; [|reflexivity]. cbn.
  destruct (text_decode content); reflexivity.
Qed.

Lemma file_store_try_bytes (key b : bytes) (st : State RT) :
  file_store_try text_encode key (VBytes b) st =
    (Ok tt, set_files (<[kad_path key := b]> (files st)) st).
Proof.
  unfold file_store_try, try_except, write_binary, bind, modify. cbn.
  unfold set_files. cbn. rewrite insert_insert_eq. reflexivity.
Qed.

Lemma file_store_try_str (key : bytes) (s : string) (content : bytes)
      (st : State RT) :
  text_encode s = Some content ->
  file_store_try text_encode key (VStr s) st =
    (Ok tt,
     set_files (<[txt_path key := content]> (delete (kad_path key) (files st))) st).
Proof.
  intros Henc.
  unfold file_store_try, try_except, write_binary, write_text, os_remove,
    bind, modify, gets, raise. cbn.
  rewrite lookup_insert_eq. cbn. rewrite Henc. unfold set_files. cbn.
  rewrite delete_insert_eq, insert_insert_eq. reflexivity.
Qed.

(** A text the platform cannot encode: the fallback write raises, with
    the binary file removed and the text file created empty. *)
Lemma file_store_try_unencodable (key : bytes) (s : string) (st : State RT) :
  text_encode s = None ->
  file_store_try text_encode key (VStr s) st =
    (Raise UnicodeEncodeError,
     set_files (<[txt_path key := []]> (delete (kad_path key) (files st))) st).
Proof.
  intros Henc.
  unfold file_store_try, try_except, write_binary, write_text, os_remove,
    bind, modify, gets, raise. cbn.
  rewrite lookup_insert_eq. cbn. rewrite Henc. unfold set_files. cbn.
  rewrite delete_insert_eq. reflexivity.
Qed.

(** Neither [None], nor a boolean, nor an integer can be written to a
    file, in binary or in text mode. *)
Lemma file_store_try_other (key : bytes) (value : pyval) (st : State RT) :
  match value with VBytes _ | VStr _ => False | _ => True end ->
  file_store_try text_encode key value st =
    (Raise TypeError,
     set_files (<[txt_path key := []]> (delete (kad_path key) (files st))) st).
Proof.
  intros Hv.
  unfold file_store_try, try_except, write_binary, write_text, os_remove,
    bind, modify, gets, raise.
  destruct value; try contradiction; cbn;
    rewrite lookup_insert_eq; cbn; unfold set_files; cbn;
    rewrite delete_insert_eq; reflexivity.
Qed.

Lemma rpc_find_file_run (sender : address) (node_id key : bytes) (st : State RT) :
  rpc_find_file digest text_decode sender node_id key st =
    find_file_try text_decode key (admitted digest (contact_of sender node_id) st).
Proof. unfold rpc_find_file. rewrite welcome_then. reflexivity. Qed.

Lemma rpc_file_store_bytes (sender : address) (node_id key b : bytes)
      (st : State RT) :
  rpc_file_store digest text_encode sender node_id key (VBytes b) st =
    (Ok true,
     set_files (<[kad_path key := b]> (files st))
       (admitted digest (contact_of sender node_id) st)).
Proof.
  unfold rpc_file_store. rewrite welcome_then. unfold bind.
  rewrite file_store_try_bytes, admitted_files. reflexivity.
Qed.

Lemma rpc_file_store_str (sender : address) (node_id key : bytes) (s : string)
      (content : bytes) (st : State RT) :
  text_encode s = Some content ->
  rpc_file_store digest text_encode sender node_id key (VStr s) st =
    (Ok true,
     set_files (<[txt_path key := content]> (delete (kad_path key) (files st)))
       (admitted digest (contact_of sender node_id) st)).
Proof.
  intros Henc. unfold rpc_file_store. rewrite welcome_then. unfold bind.
  rewrite (file_store_try_str key s content _ Henc), admitted_files. reflexivity.
Qed.

Lemma rpc_file_store_unencodable (sender : address) (node_id key : bytes)
      (s : string) (st : State RT) :
  text_encode s = None ->
  rpc_file_store digest text_encode sender node_id key (VStr s) st =
    (Raise UnicodeEncodeError,
     set_files (<[txt_path key := []]> (delete (kad_path key) (files st)))
       (admitted digest (contact_of sender node_id) st)).
Proof.
  intros Henc. unfold rpc_file_store. rewrite welcome_then. unfold bind.
  rewrite (file_store_try_unencodable key s _ Henc), admitted_files. reflexivity.
Qed.

Lemma refresh_loop (buckets : list KBucket) (ids : list bytes) (st : State RT) :
  Forall valid_range buckets ->
  exists new st',
    for_each buckets
      (fun bucket ids =>
         let* n := randint (fst (range bucket)) (snd (range bucket)) in
         let* rid := to_bytes n 20 in
         ret (ids ++ [rid]))
      ids st = (Ok (ids ++ new), st') /\
    Forall2 in_range_of buckets new.
Proof.
  intros Hvalid. revert ids st.
  induction Hvalid as [|b buckets (Hlo & Hle & Hhi) _ IH]; intros ids st.
  - exists [], st. cbn. rewrite app_nil_r. split; [reflexivity | constructor].
  - cbn [for_each]. unfold bind at 1. unfold bind at 1.
    destruct (randint_run (fst (range b)) (snd (range b)) st Hle) as [-> Hn].
    set (n := fst (range b) + _) in *. unfold bind at 1.
    assert (Hfit : 0 <= n < 256 ^ Z.of_nat 20).
    { change (256 ^ Z.of_nat 20) with (2 ^ 160). lia. }
    rewrite (to_bytes_run n 20 _ Hfit). cbn [ret].
    destruct (IH (ids ++ [digits_be 20 n]) (set_rng_pos (S (rng_pos st)) st))
      as (new & st' & -> & Hall).
    exists (digits_be 20 n :: new), st'. split.
    + rewrite <- app_assoc. reflexivity.
    + constructor; [|exact Hall]. split; [apply length_digits_be|].
      rewrite (from_bytes_digits_be_fits 20 n Hfit). exact Hn.
Qed.

(** A value that is neither a byte string nor a text makes
    [rpc_file_store] raise. *)
Lemma rpc_file_store_other (sender : address) (node_id key : bytes)
      (value : pyval) (st : State RT) :
  match value with VBytes _ | VStr _ => False | _ => True end ->
  fst (rpc_file_store digest text_encode sender node_id key value st)
    = Raise TypeError.
Proof.
  intros Hv. unfold rpc_file_store. rewrite welcome_then. unfold bind.
  rewrite (file_store_try_other key value _ Hv). reflexivity.
Qed.

End Facts.

(** * The claims *)

Section Claims.

Context {RT : Type} `{RoutingTable RT}.
Variable digest : bytes -> bytes.
Variable text_encode : string -> option bytes.
Variable text_decode : bytes -> option string.


(** C2.  [handle_call_response] returns the result it was given in
    both branches.  On a failed result it calls [remove_contact C] and
    nothing else: no store call, no [add_contact].  On a successful
    result it leaves the state exactly as [welcome_if_new C] leaves it,
    which returns normally and adds no [remove_contact] to the trace. *)
Theorem handle_call_response_spec {P : Type} (result : bool * P) (C : Node)
        (st : State RT) :
  handle_call_response digest result C st =
    (Ok result,
     if fst result then snd (welcome_if_new digest C st)
     else set_router (remove_contact (router st) C)
            (set_trace (trace st ++ [ERemoveContact C]) st)) /\
  fst (welcome_if_new digest C st) = Ok tt /\
  exists evs,
    trace (snd (welcome_if_new digest C st)) = trace st ++ evs /\
    forall n, ~ In (ERemoveContact n) evs.
Proof.
  rewrite welcome_if_new_run. cbn [fst snd]. split; [|split].
  - unfold handle_call_response. destruct (fst result); cbn [negb].
    + rewrite welcome_then. reflexivity.
    + reflexivity.
  - reflexivity.
  - exists (admission_events digest C st). split.
    + apply admitted_trace.
    + intros n. apply admission_events_no_removal.
Qed.

(** C3, as the code has it.  [rpc_ping], [rpc_store], [rpc_file_store],
    [rpc_find_file], [rpc_find_node] and [rpc_find_value] build the
    contact [source] from the sender address and the claimed id and call
    [welcome_if_new source], which returns normally; the rest of each
    handler runs in the state [st1] that call leaves, and the reply is
    computed there.  ([rpc_find_node] evaluates [int(nodeid.hex(), 16)]
    for its log line first, which raises on an empty id.)  [rpc_stun]
    is handed the sender address only: it returns it and leaves the
    state as it is. *)
Theorem handlers_admit_sender (sender : address) (nodeid key : bytes)
        (value : pyval) (st : State RT) :
  let source := contact_of sender nodeid in
  let st1 := snd (welcome_if_new digest source st) in
  fst (welcome_if_new digest source st) = Ok tt /\
  rpc_ping digest sender nodeid st = (Ok (id (source_node st1)), st1) /\
  rpc_store digest sender nodeid key value st =
    (Ok true, set_storage (storage_set (storage st1) key value) st1) /\
  rpc_file_store digest text_encode sender nodeid key value st =
    (file_store_try text_encode key value >> ret true) st1 /\
  rpc_find_file digest text_decode sender nodeid key st =
    find_file_try text_decode key st1 /\
  rpc_find_node digest sender nodeid key st =
    match nodeid with
    | [] => (Raise ValueError, st)
    | _ :: _ =>
        (Ok (RNodes (map node_tuple
                       (find_neighbors (router st1) (key_node key) (Some source)))),
         st1)
    end /\
  rpc_find_value digest sender nodeid key st =
    match storage_get (storage st1) key with
    | VNone => rpc_find_node digest sender nodeid key st1
    | v => (Ok (RValue v), st1)
    end /\
  rpc_stun sender st = (Ok sender, st).
Proof.
  cbn zeta. rewrite welcome_if_new_run. cbn [fst snd].
  repeat split.
  - unfold rpc_ping. rewrite welcome_then. reflexivity.
  - unfold rpc_store. rewrite welcome_then. reflexivity.
  - unfold rpc_file_store. rewrite welcome_then. reflexivity.
  - unfold rpc_find_file. rewrite welcome_then. reflexivity.
  - rewrite rpc_find_node_run. reflexivity.
  - rewrite rpc_find_value_run, admitted_storage. reflexivity.
Qed.

(** C4, as the code has it.  For a contact [C] already in the routing
    table, [welcome_if_new C] returns at once: no store call is issued,
    [add_contact] is not called, and the state (routing table and trace
    included) is unchanged. *)
Theorem welcome_if_new_known_contact (st : State RT) (C : Node) :
  is_new_node (router st) C = false ->
  welcome_if_new digest C st = (Ok tt, st).
Proof.
  intros Hknown. rewrite welcome_if_new_run. unfold admitted.
  rewrite Hknown. reflexivity.
Qed.

(** C5, as the code has it.  For a key the local store maps to a value
    other than [None], [rpc_find_value] returns [{value: stored value}]
    right after the admission step, without running [rpc_find_node].
    For a key absent from the store it is the call of [rpc_find_node]
    for the same sender, claimed id and key, made after the admission
    step; when admitting the sender once more leaves the routing table
    as it is (so when the sender is in the table by then), the reply is
    the one [rpc_find_node] gives when called directly. *)
Theorem find_value_precedence (sender : address) (nodeid key : bytes)
        (st : State RT) :
  let source := contact_of sender nodeid in
  let st1 := snd (welcome_if_new digest source st) in
  (forall v,
      storage_lookup (storage st) key = Some v -> v <> VNone ->
      rpc_find_value digest sender nodeid key st = (Ok (RValue v), st1)) /\
  (storage_lookup (storage st) key = None ->
   rpc_find_value digest sender nodeid key st =
     rpc_find_node digest sender nodeid key st1 /\
   (router (snd (welcome_if_new digest source st1)) = router st1 ->
    fst (rpc_find_value digest sender nodeid key st) =
      fst (rpc_find_node digest sender nodeid key st))).
Proof.
  cbn zeta. rewrite !welcome_if_new_run. cbn [snd].
  rewrite rpc_find_value_run. cbn zeta. unfold storage_get. split.
  - intros v -> Hv. destruct v; [contradiction | reflexivity..].
  - intros ->. split; [reflexivity|]. intros Hsame.
    rewrite !rpc_find_node_run. destruct nodeid; [reflexivity|].
    cbn [fst]. rewrite Hsame. reflexivity.
Qed.


(** C7.  After the admission step [rpc_find_file] replies with the
    content of the binary file of the key when there is one; else with
    the text of the legacy file when there is one; else with
    [{value: None}].  An absent blob raises nothing, and the files are
    left as they were. *)
Theorem find_file_reply (sender : address) (node_id key : bytes)
        (st : State RT) :
  rpc_find_file digest text_decode sender node_id key st =
    (match files st !! kad_path key with
     | Some content => Ok (RValue (VBytes content))
     | None =>
         match files st !! txt_path key with
         | Some content =>
             match text_decode content with
             | Some s => Ok (RValue (VStr s))
             | None => Raise UnicodeDecodeError
             end
         | None => Ok (RValue VNone)
         end
     end,
     snd (welcome_if_new digest (contact_of sender node_id) st)) /\
  files (snd (welcome_if_new digest (contact_of sender node_id) st)) = files st.
Proof.
  rewrite welcome_if_new_run. cbn [snd]. split; [|apply admitted_files].
  rewrite rpc_find_file_run, find_file_try_run, admitted_files. reflexivity.
Qed.

(** C8, as the code has it.  For every key and every text value the
    binary write fails and its [TypeError] does not reach the caller:
    the binary file of the key is removed (the empty one the failed
    write created, and any older one with it) and the value is written
    in text mode.  When the platform can encode the text,
    [rpc_file_store] returns [True] and the text file of the key holds
    the encoded text; when it cannot, the text write raises
    [UnicodeEncodeError], which reaches the caller, and the text file
    is left empty. *)
Theorem file_store_text_fallback (sender : address) (node_id key : bytes)
        (s : string) (st : State RT) :
  let st1 := snd (welcome_if_new digest (contact_of sender node_id) st) in
  let stored := rpc_file_store digest text_encode sender node_id key (VStr s) st in
  files (snd stored) !! kad_path key = None /\
  match text_encode s with
  | Some content =>
      stored =
        (Ok true,
         set_files (<[txt_path key := content]> (delete (kad_path key) (files st)))
           st1) /\
      files (snd stored) !! txt_path key = Some content
  | None =>
      stored =
        (Raise UnicodeEncodeError,
         set_files (<[txt_path key := []]> (delete (kad_path key) (files st)))
           st1) /\
      files (snd stored) !! txt_path key = Some []
  end.
Proof.
  cbn zeta. rewrite welcome_if_new_run. cbn [snd].
  destruct (text_encode s) as [content|] eqn:Henc.
  - rewrite (rpc_file_store_str digest text_encode sender node_id key s content st Henc).
    cbn [snd files set_files]. split; [|split; [reflexivity|]].
    + rewrite lookup_insert_ne by (apply not_eq_sym, kad_path_neq_txt_path).
      apply lookup_delete_eq.
    + apply lookup_insert_eq.
  - rewrite (rpc_file_store_unencodable digest text_encode sender node_id key s st Henc).
    cbn [snd files set_files]. split; [|split; [reflexivity|]].
    + rewrite lookup_insert_ne by (apply not_eq_sym, kad_path_neq_txt_path).
      apply lookup_delete_eq.
    + apply lookup_insert_eq.
Qed.

(** C9.  When the range of every lonely bucket lies in the 160-bit
    identifier space, [get_refresh_ids] returns normally, with exactly
    one identifier per lonely bucket, in the order of the buckets; each
    is 20 bytes long and, read as a big-endian integer, lies within the
    range of its bucket. *)
Theorem get_refresh_ids_in_range (st : State RT) :
  Forall valid_range (lonely_buckets (router st)) ->
  exists ids st',
    get_refresh_ids st = (Ok ids, st') /\
    Forall2 in_range_of (lonely_buckets (router st)) ids.
Proof.
  intros Hvalid. unfold get_refresh_ids, bind at 1, gets at 1.
  destruct (refresh_loop (lonely_buckets (router st)) [] st Hvalid)
    as (new & st' & Hrun & Hall).
  exists new, st'. split; [exact Hrun | exact Hall].
Qed.

(** C10.  For a key the local store maps to [None], [rpc_find_value] is
    the call of [rpc_find_node] made after the admission step: it never
    replies [{value: ...}], it replies with a neighbour list whenever the
    claimed id is not empty, and its reply is the one it gives in any
    state with the same routing table in which the key is absent. *)
Theorem find_value_none_as_absent (sender : address) (nodeid key : bytes)
        (st : State RT) :
  storage_lookup (storage st) key = Some VNone ->
  let st1 := snd (welcome_if_new digest (contact_of sender nodeid) st) in
  rpc_find_value digest sender nodeid key st =
    rpc_find_node digest sender nodeid key st1 /\
  (forall v, fst (rpc_find_value digest sender nodeid key st) <> Ok (RValue v)) /\
  (nodeid <> [] ->
   exists neighbors,
     fst (rpc_find_value digest sender nodeid key st) = Ok (RNodes neighbors)) /\
  (forall st' : State RT,
      router st' = router st ->
      storage_lookup (storage st') key = None ->
      fst (rpc_find_value digest sender nodeid key st') =
        fst (rpc_find_value digest sender nodeid key st)).
Proof.
  intros Hnone. cbn zeta. rewrite welcome_if_new_run. cbn [snd].
  assert (Hrun : rpc_find_value digest sender nodeid key st =
                 rpc_find_node digest sender nodeid key
                   (admitted digest (contact_of sender nodeid) st)).
  { rewrite rpc_find_value_run. cbn zeta. unfold storage_get.
    rewrite Hnone. reflexivity. }
  split; [exact Hrun|]. rewrite Hrun. split; [|split].
  - intros v. rewrite rpc_find_node_run. destruct nodeid; discriminate.
  - intros Hid. rewrite rpc_find_node_run.
    destruct nodeid; [contradiction|]. eexists. reflexivity.
  - intros st' Hr Habs. rewrite rpc_find_value_run. cbn zeta.
    unfold storage_get. rewrite Habs. apply rpc_find_node_reply.
    rewrite !admitted_router, Hr. reflexivity.
Qed.

End Claims.

(** * The claims on the flat example *)


(** C3, as stated, fails for [rpc_stun]: with nobody known, admitting a
    contact built from the sender address, whatever its id, would end in
    [add_contact]; [rpc_stun] leaves the trace empty. *)
Lemma rpc_stun_no_admission :
  ~ exists nodeid rest,
      trace (snd (rpc_stun Flat.newcomer_addr Flat.lone_state)) =
        trace (snd (welcome_if_new Flat.digest
                      (contact_of Flat.newcomer_addr nodeid) Flat.lone_state))
        ++ rest.
Proof.
  intros (nodeid & rest & Heq).
  rewrite welcome_if_new_run in Heq. cbn [snd] in Heq.
  rewrite admitted_trace in Heq.
  apply (f_equal (@length Event)) in Heq.
  unfold admission_events in Heq. cbn in Heq. discriminate Heq.
Qed.

(** C4, as stated, fails: [peer] is known and is seen again, yet
    [welcome_if_new] does not call [add_contact] for it, and it keeps its
    place before [other] where [add_contact] would have moved it last. *)
Lemma welcome_if_new_known_contact_no_refresh :
  is_new_node (router Flat.two_peer_state) Flat.peer = false /\
  ~ In (EAddContact Flat.peer)
       (trace (snd (welcome_if_new Flat.digest Flat.peer Flat.two_peer_state))) /\
  Flat.contacts (router (snd (welcome_if_new Flat.digest Flat.peer Flat.two_peer_state)))
    = [Flat.peer; Flat.other] /\
  Flat.contacts (add_contact (router Flat.two_peer_state) Flat.peer)
    = [Flat.other; Flat.peer].
Proof.
  split; [reflexivity|]. split; [|split; reflexivity].
  vm_compute. intros [].
Qed.

(** The known peer of the flat example is seen again. *)
Lemma welcome_if_new_known_contact_witness :
  is_new_node (router Flat.peer_state) Flat.peer = false /\
  welcome_if_new Flat.digest Flat.peer Flat.peer_state = (Ok tt, Flat.peer_state).
Proof.
  split; [reflexivity|].
  apply (welcome_if_new_known_contact Flat.digest Flat.peer_state Flat.peer).
  reflexivity.
Defined.

(** C5, as stated, fails: the key is in the store, with the value
    [None], and [rpc_find_value] replies with a neighbour list. *)
Lemma find_value_none_falls_through :
  storage_lookup (storage Flat.none_state) [x10] = Some VNone /\
  fst (rpc_find_value Flat.digest Flat.newcomer_addr [x12] [x10] Flat.none_state)
    = Ok (RNodes []) /\
  fst (rpc_find_value Flat.digest Flat.newcomer_addr [x12] [x10] Flat.none_state)
    <> Ok (RValue VNone).
Proof. split; [reflexivity|]. split; [reflexivity | discriminate]. Qed.

(** A stored key, and an absent one, on the flat example. *)
Lemma find_value_precedence_witness :
  (storage_lookup (storage Flat.peer_state) [x10] = Some (VBytes [x61]) /\
   VBytes [x61] <> VNone /\
   rpc_find_value Flat.digest Flat.newcomer_addr [x12] [x10] Flat.peer_state =
     (Ok (RValue (VBytes [x61])),
      snd (welcome_if_new Flat.digest (contact_of Flat.newcomer_addr [x12])
             Flat.peer_state))) /\
  (storage_lookup (storage Flat.peer_state) [x13] = None /\
   fst (rpc_find_value Flat.digest Flat.newcomer_addr [x12] [x13] Flat.peer_state) =
     fst (rpc_find_node Flat.digest Flat.newcomer_addr [x12] [x13] Flat.peer_state)).
Proof.
  split.
  - split; [reflexivity|]. split; [discriminate|].
    apply (proj1 (find_value_precedence Flat.digest Flat.newcomer_addr [x12] [x10]
                    Flat.peer_state));
      [reflexivity | discriminate].
  - split; [reflexivity|].
    apply (proj2 (find_value_precedence Flat.digest Flat.newcomer_addr [x12] [x13]
                    Flat.peer_state));
      reflexivity.
Defined.

(** The key stored with [None] on the flat example. *)
Lemma find_value_none_as_absent_witness :
  storage_lookup (storage Flat.none_state) [x10] = Some VNone /\
  rpc_find_value Flat.digest Flat.newcomer_addr [x12] [x10] Flat.none_state =
    rpc_find_node Flat.digest Flat.newcomer_addr [x12] [x10]
      (snd (welcome_if_new Flat.digest (contact_of Flat.newcomer_addr [x12])
              Flat.none_state)).
Proof.
  split; [reflexivity|].
  apply (find_value_none_as_absent Flat.digest Flat.newcomer_addr [x12] [x10]
           Flat.none_state).
  reflexivity.
Defined.



(** C8, as stated, fails: [None] cannot be written in binary form, and
    not in text form either.  The [TypeError] of the text write reaches
    the caller. *)
Lemma file_store_none_raises :
  fst (rpc_file_store Flat.digest Flat.text_encode Flat.newcomer_addr [x12] [x10]
         VNone Flat.lone_state) = Raise TypeError /\
  fst (rpc_file_store Flat.digest Flat.text_encode Flat.newcomer_addr [x12] [x10]
         VNone Flat.lone_state) <> Ok true.
Proof. split; [vm_compute; reflexivity | vm_compute; discriminate]. Qed.

(** A text stored through the fallback on the flat example. *)
Lemma file_store_text_fallback_witness :
  Flat.text_encode "blob" = Some (list_byte_of_string "blob") /\
  rpc_file_store Flat.digest Flat.text_encode Flat.newcomer_addr [x12] [x10]
    (VStr "blob") Flat.lone_state =
    (Ok true,
     set_files
       (<[txt_path [x10] := list_byte_of_string "blob"]>
          (delete (kad_path [x10]) (files Flat.lone_state)))
       (snd (welcome_if_new Flat.digest (contact_of Flat.newcomer_addr [x12])
               Flat.lone_state))).
Proof.
  split; [reflexivity|].
  pose proof (file_store_text_fallback Flat.digest Flat.text_encode
                Flat.newcomer_addr [x12] [x10] "blob" Flat.lone_state)
    as [_ Hcase].
  change (Flat.text_encode "blob") with (Some (list_byte_of_string "blob")) in Hcase.
  exact (proj1 Hcase).
Defined.

(** The two stale buckets of the flat example. *)
Lemma get_refresh_ids_in_range_witness :
  Forall valid_range (lonely_buckets (router Flat.stale_state)) /\
  exists ids st',
    get_refresh_ids Flat.stale_state = (Ok ids, st') /\
    Forall2 in_range_of (lonely_buckets (router Flat.stale_state)) ids.
Proof.
  assert (Hvalid : Forall valid_range (lonely_buckets (router Flat.stale_state))).
  { repeat constructor; cbn; lia. }
  split; [exact Hvalid|].
  apply (get_refresh_ids_in_range Flat.stale_state Hvalid).
Defined.


(** * Further properties *)

(** ** Order and extent of the replication *)

Lemma sublist_list_filter {A} (f : A -> bool) (l : list A) :
  sublist (List.filter f l) l.
Proof.
  induction l as [|x l IH]; [constructor|]. cbn.
  destruct (f x); [apply sublist_skip | apply sublist_cons]; exact IH.
Qed.

Lemma list_filter_all {A} (f : A -> bool) (l : list A) :
  (forall x, In x l -> f x = true) -> List.filter f l = l.
Proof.
  induction l as [|x l IH]; intros Hall; [reflexivity|]. cbn.
  rewrite (Hall x (or_introl eq_refl)), IH; [reflexivity|].
  intros y Hy. apply Hall. right. exact Hy.
Qed.

Section Replication.

Context {RT : Type} `{RoutingTable RT}.
Variable digest : bytes -> bytes.

Lemma store_calls_call_of (rt : RT) (me node : Node) (items : Storage) :
  store_calls digest rt me node items =
    map (call_of node) (List.filter (fun kv => selected digest rt me node (fst kv)) items).
Proof. reflexivity. Qed.

(** Admission of a new contact, with the store calls written out. *)
Lemma welcome_if_new_new (st : State RT) (C : Node) :
  is_new_node (router st) C = true ->
  welcome_if_new digest C st =
    (Ok tt,
     set_router (add_contact (router st) C)
       (set_trace
          (trace st ++
           store_calls digest (router st) (source_node st) C (storage st) ++
           [EAddContact C]) st)).
Proof.
  intros Hnew. rewrite welcome_if_new_run. unfold admitted. rewrite Hnew.
  reflexivity.
Qed.

(** X1.  For a new contact the store calls are handed to the event loop
    in the iteration order of the store, at most one per entry, and all
    of them before [add_contact]: the entries pushed form a sublist of
    the store. *)
Theorem welcome_if_new_call_order (st : State RT) (C : Node) :
  is_new_node (router st) C = true ->
  exists pushed,
    sublist pushed (storage st) /\
    welcome_if_new digest C st =
      (Ok tt,
       set_router (add_contact (router st) C)
         (set_trace (trace st ++ map (call_of C) pushed ++ [EAddContact C]) st)).
Proof.
  intros Hnew.
  exists (List.filter
            (fun kv => selected digest (router st) (source_node st) C (fst kv))
            (storage st)).
  split; [apply sublist_list_filter|].
  rewrite (welcome_if_new_new st C Hnew), store_calls_call_of. reflexivity.
Qed.

(** X2.  When the table knows no neighbour for any key of the store (an
    empty table, say), a new contact is sent every entry of the store,
    in order, and is then added. *)
Theorem welcome_if_new_pushes_all (st : State RT) (C : Node) :
  is_new_node (router st) C = true ->
  (forall key value,
      In (key, value) (storage st) ->
      find_neighbors (router st) (key_node (digest key)) None = []) ->
  welcome_if_new digest C st =
    (Ok tt,
     set_router (add_contact (router st) C)
       (set_trace (trace st ++ map (call_of C) (storage st) ++ [EAddContact C]) st)).
Proof.
  intros Hnew Hnone.
  rewrite (welcome_if_new_new st C Hnew), store_calls_call_of.
  rewrite list_filter_all; [reflexivity|].
  intros [key value] Hin. unfold selected. cbn [fst].
  rewrite (Hnone key value Hin). reflexivity.
Qed.

(** X3.  A node that is not the closest holder pushes nothing: when some
    neighbour of the key's node, in an ascending neighbour list, is at
    least as close to it as the local node, admitting a new contact
    adds no store call for that key. *)
Theorem welcome_if_new_not_closest (st : State RT) (C : Node) (key : bytes)
        (value : pyval) (n : Node) :
  is_new_node (router st) C = true ->
  ascending (key_node (digest key))
    (find_neighbors (router st) (key_node (digest key)) None) ->
  In n (find_neighbors (router st) (key_node (digest key)) None) ->
  distance_to n (key_node (digest key))
    <= distance_to (source_node st) (key_node (digest key)) ->
  exists evs,
    trace (snd (welcome_if_new digest C st)) = trace st ++ evs /\
    ~ In (ECallStore C key value) evs.
Proof.
  intros Hnew Hasc Hin Hclose.
  rewrite (welcome_if_new_new st C Hnew). cbn [snd trace set_router set_trace].
  eexists. split; [reflexivity|].
  rewrite in_app_iff. intros [Hcall | [Heq | []]]; [|discriminate].
  apply in_store_calls in Hcall as (k & v & Heq & _ & Hsel).
  injection Heq as <- <-. unfold selected in Hsel.
  destruct (find_neighbors (router st) (key_node (digest key)) None)
    as [|n0 rest] eqn:Hn; [destruct Hin|].
  apply andb_true_iff in Hsel as [_ Hme]. apply Z.ltb_lt in Hme.
  destruct (ascending_head _ n0 rest Hasc) as [_ Hmin].
  specialize (Hmin n Hin). unfold closer_eq in Hmin. lia.
Qed.

(** X4.  A newcomer that is at least as far from the key's node as every
    known neighbour of it gets no copy: admitting it adds no store call
    for that key. *)
Theorem welcome_if_new_newcomer_too_far (st : State RT) (C : Node) (key : bytes)
        (value : pyval) :
  is_new_node (router st) C = true ->
  find_neighbors (router st) (key_node (digest key)) None <> [] ->
  (forall n,
      In n (find_neighbors (router st) (key_node (digest key)) None) ->
      distance_to n (key_node (digest key))
        <= distance_to C (key_node (digest key))) ->
  exists evs,
    trace (snd (welcome_if_new digest C st)) = trace st ++ evs /\
    ~ In (ECallStore C key value) evs.
Proof.
  intros Hnew Hsome Hfar.
  rewrite (welcome_if_new_new st C Hnew). cbn [snd trace set_router set_trace].
  eexists. split; [reflexivity|].
  rewrite in_app_iff. intros [Hcall | [Heq | []]]; [|discriminate].
  apply in_store_calls in Hcall as (k & v & Heq & _ & Hsel).
  injection Heq as <- <-. unfold selected in Hsel.
  destruct (find_neighbors (router st) (key_node (digest key)) None)
    as [|n0 rest] eqn:Hn; [contradiction|].
  apply andb_true_iff in Hsel as [Hnew_close _]. apply Z.ltb_lt in Hnew_close.
  assert (Hlast : In (List.last (n0 :: rest) n0) (n0 :: rest)).
  { pose proof (last_cons_default n0 rest) as Hl.
    apply list_elem_of_In, last_Some_elem_of. exact Hl. }
  specialize (Hfar _ Hlast). lia.
Qed.

(** X5.  Admission happens once: when the table knows the contact after
    [add_contact], welcoming it a second time right away does nothing,
    so the store calls are issued once. *)
Theorem welcome_if_new_twice (st : State RT) (C : Node) :
  is_new_node (add_contact (router st) C) C = false ->
  (welcome_if_new digest C >> welcome_if_new digest C) st =
    welcome_if_new digest C st.
Proof.
  intros Hknown. rewrite welcome_then, !welcome_if_new_run. f_equal.
  unfold admitted at 1.
  destruct (is_new_node (router (admitted digest C st)) C) eqn:Hnew2;
    [|reflexivity].
  exfalso. rewrite admitted_router in Hnew2.
  destruct (is_new_node (router st) C) eqn:Hnew; congruence.
Qed.

End Replication.

(** ** File names *)

Lemma hex_digit_inj (a b : N) :
  (a < 16)%N -> (b < 16)%N -> hex_digit a = hex_digit b -> a = b.
Proof.
  intros Ha Hb.
  assert (Hcases : forall n : N, (n < 16)%N ->
            n = 0%N \/ n = 1%N \/ n = 2%N \/ n = 3%N \/ n = 4%N \/ n = 5%N \/
            n = 6%N \/ n = 7%N \/ n = 8%N \/ n = 9%N \/ n = 10%N \/ n = 11%N \/
            n = 12%N \/ n = 13%N \/ n = 14%N \/ n = 15%N) by (intros n Hn; lia).
  destruct (Hcases a Ha) as [->|[->|[->|[->|[->|[->|[->|[->|[->|[->|[->|[->|[->|[->|[->| ->]]]]]]]]]]]]]]];
    destruct (Hcases b Hb) as [->|[->|[->|[->|[->|[->|[->|[->|[->|[->|[->|[->|[->|[->|[->| ->]]]]]]]]]]]]]]];
    cbn; intros Heq; first [reflexivity | discriminate Heq].
Qed.

(** A hexadecimal digit is none of the characters that only occur in
    the directory name and the extensions. *)
Lemma hex_digit_not_special (n : N) :
  hex_digit n <> "."%char /\ hex_digit n <> "i"%char /\ hex_digit n <> "t"%char.
Proof.
  unfold hex_digit. destruct n as [|p]; [repeat split; discriminate|].
  do 4 (try destruct p as [p|p|]); repeat split; discriminate.
Qed.

Lemma byte_of_digits (x y : byte) :
  (Byte.to_N x / 16 = Byte.to_N y / 16)%N ->
  (Byte.to_N x mod 16 = Byte.to_N y mod 16)%N -> x = y.
Proof.
  intros Hq Hr.
  assert (Heq : Byte.to_N x = Byte.to_N y).
  { rewrite (N.div_mod (Byte.to_N x) 16), (N.div_mod (Byte.to_N y) 16) by lia.
    rewrite Hq, Hr. reflexivity. }
  assert (Hs : Some x = Some y)
    by (rewrite <- (Byte.of_to_N x), <- (Byte.of_to_N y), Heq; reflexivity).
  injection Hs as ->. reflexivity.
Qed.

(** [bytes.hex()] followed by an extension that starts with a dot can
    be read back. *)
Lemma hex_ext_inj (k k' : bytes) (ext : string) :
  hex k +:+ String "." ext = hex k' +:+ String "." ext -> k = k'.
Proof.
  revert k'. induction k as [|x k IH]; intros [|y k'] Heq; cbn in Heq.
  - reflexivity.
  - injection Heq as Hc _. destruct (hex_digit_not_special (Byte.to_N y / 16)).
    congruence.
  - injection Heq as Hc _. destruct (hex_digit_not_special (Byte.to_N x / 16)).
    congruence.
  - injection Heq as Hhi Hlo Hrest.
    pose proof (Byte.to_N_bounded x). pose proof (Byte.to_N_bounded y).
    apply hex_digit_inj in Hhi;
      [|apply N.Div0.div_lt_upper_bound; lia..].
    apply hex_digit_inj in Hlo; [|apply N.mod_lt; lia..].
    f_equal; [apply byte_of_digits; assumption | apply IH, Hrest].
Qed.

Lemma kad_path_inj (k k' : bytes) : kad_path k = kad_path k' -> k = k'.
Proof.
  unfold kad_path. intros Heq. cbn in Heq.
  injection Heq as Heq. apply (hex_ext_inj k k' "kad"). exact Heq.
Qed.

Lemma txt_path_inj (k k' : bytes) : txt_path k = txt_path k' -> k = k'.
Proof. unfold txt_path. apply (hex_ext_inj k k' "txt"). Qed.

(** The second character of a binary path is the [i] of [files]; the
    second character of a text path is a hexadecimal digit or, for the
    empty key, the [t] of the extension. *)
Lemma kad_path_neq_txt_path_any (k k' : bytes) : kad_path k <> txt_path k'.
Proof.
  unfold kad_path, txt_path. destruct k' as [|y k']; cbn; [discriminate|].
  intros Heq. injection Heq as _ Hc _.
  destruct (hex_digit_not_special (Byte.to_N y mod 16)) as (_ & Hi & _).
  congruence.
Qed.

(** X6.  Distinct keys never share a file: the binary path and the text
    path are each injective in the key, and no binary path of one key is
    the text path of another. *)
Theorem blob_paths_distinct (k k' : bytes) :
  (kad_path k = kad_path k' -> k = k') /\
  (txt_path k = txt_path k' -> k = k') /\
  kad_path k <> txt_path k'.
Proof.
  split; [apply kad_path_inj|]. split; [apply txt_path_inj|].
  apply kad_path_neq_txt_path_any.
Qed.

(** ** What the inbound handlers leave alone *)

Lemma storage_lookup_set (s : Storage) (key key' : bytes) (value : pyval) :
  storage_lookup (storage_set s key value) key' =
    if decide (key' = key) then Some value else storage_lookup s key'.
Proof.
  unfold storage_set. induction s as [|[k v] s IH].
  - cbn. destruct (decide (key = key')), (decide (key' = key)); congruence.
  - rewrite filter_cons. cbn [fst].
    destruct (decide (k <> key)) as [Hne | Heq].
    + cbn [app storage_lookup]. rewrite IH.
      destruct (decide (k = key')) as [-> | _]; [|reflexivity].
      destruct (decide (key' = key)); [contradiction | reflexivity].
    + assert (k = key) as -> by (destruct (decide (k = key)); tauto).
      rewrite IH. cbn [storage_lookup].
      destruct (decide (key' = key)) as [_ | Hne]; [reflexivity|].
      destruct (decide (key = key')); [congruence | reflexivity].
Qed.

Section Frames.

Context {RT : Type} `{RoutingTable RT}.
Variable digest : bytes -> bytes.
Variable text_encode : string -> option bytes.
Variable text_decode : bytes -> option string.

Lemma same_data_refl (st : State RT) : same_data st st.
Proof. repeat split. Qed.

Lemma same_data_trans (st1 st2 st3 : State RT) :
  same_data st1 st2 -> same_data st2 st3 -> same_data st1 st3.
Proof.
  unfold same_data. intros (?&?&?&?&?) (?&?&?&?&?). repeat split; congruence.
Qed.

Lemma admitted_same_data (node : Node) (st : State RT) :
  same_data st (admitted digest node st).
Proof.
  unfold admitted. destruct (is_new_node (router st) node); repeat split.
Qed.

Lemma only_admits_refl (source : Node) (st : State RT) : only_admits source st st.
Proof. exists []. split; [symmetry; apply app_nil_r | intros e []]. Qed.

Lemma admitted_only_admits (source : Node) (st : State RT) :
  only_admits source st (admitted digest source st).
Proof.
  exists (admission_events digest source st). split; [apply admitted_trace|].
  unfold admission_events. intros e He.
  destruct (is_new_node (router st) source); [|destruct He].
  apply in_app_iff in He as [He | [<- | []]]; [|left; reflexivity].
  apply in_store_calls in He as (k & v & -> & Hin & _).
  right. exists (k, v). split; [exact Hin | reflexivity].
Qed.

Lemma only_admits_trans (source : Node) (st1 st2 st3 : State RT) :
  storage st2 = storage st1 ->
  only_admits source st1 st2 -> only_admits source st2 st3 ->
  only_admits source st1 st3.
Proof.
  intros Hs (e1 & Ht1 & H1) (e2 & Ht2 & H2). exists (e1 ++ e2). split.
  - rewrite Ht2, Ht1, app_assoc. reflexivity.
  - intros e He. apply in_app_iff in He as [He | He]; [apply H1, He|].
    rewrite <- Hs. apply H2, He.
Qed.

(** The state [rpc_find_node] ends in. *)
Lemma rpc_find_node_state (sender : address) (nodeid key : bytes) (st : State RT) :
  snd (rpc_find_node digest sender nodeid key st) =
    match nodeid with
    | [] => st
    | _ :: _ => admitted digest (contact_of sender nodeid) st
    end.
Proof. rewrite rpc_find_node_run. destruct nodeid; reflexivity. Qed.

(** The state [rpc_find_value] ends in: one admission on a hit, and on
    a miss the state [rpc_find_node] ends in after one. *)
Lemma rpc_find_value_state (sender : address) (nodeid key : bytes) (st : State RT) :
  snd (rpc_find_value digest sender nodeid key st) =
    let st1 := admitted digest (contact_of sender nodeid) st in
    match storage_get (storage st) key with
    | VNone => snd (rpc_find_node digest sender nodeid key st1)
    | _ => st1
    end.
Proof.
  rewrite rpc_find_value_run. cbn zeta.
  destruct (storage_get (storage st) key); reflexivity.
Qed.

(** The [try] statement of [rpc_file_store] touches the two files of
    its key and nothing else. *)
Lemma file_store_try_frame (key : bytes) (value : pyval) (st : State RT) :
  exists fs,
    snd (file_store_try text_encode key value st) = set_files fs st /\
    forall path,
      path <> kad_path key -> path <> txt_path key ->
      fs !! path = files st !! path.
Proof.
  destruct value as [| b | z | s | b].
  1-3: rewrite file_store_try_other by exact I; eexists; split; [reflexivity|];
       intros path Hk Ht; rewrite lookup_insert_ne, lookup_delete_ne by congruence;
       reflexivity.
  - destruct (text_encode s) as [content|] eqn:Henc.
    + rewrite (file_store_try_str text_encode key s content st Henc).
      eexists. split; [reflexivity|].
      intros path Hk Ht. rewrite lookup_insert_ne, lookup_delete_ne by congruence.
      reflexivity.
    + rewrite (file_store_try_unencodable text_encode key s st Henc).
      eexists. split; [reflexivity|].
      intros path Hk Ht. rewrite lookup_insert_ne, lookup_delete_ne by congruence.
      reflexivity.
  - rewrite file_store_try_bytes. eexists. split; [reflexivity|].
    intros path Hk Ht. rewrite lookup_insert_ne by congruence. reflexivity.
Qed.

Lemma rpc_file_store_state (sender : address) (node_id key : bytes)
      (value : pyval) (st : State RT) :
  snd (rpc_file_store digest text_encode sender node_id key value st) =
    snd (file_store_try text_encode key value
           (admitted digest (contact_of sender node_id) st)).
Proof.
  unfold rpc_file_store. rewrite welcome_then. unfold bind.
  destruct (file_store_try text_encode key value _) as [[[]|e] st']; reflexivity.
Qed.

(** X7.  Handling [ping], [find_node], [find_value] or [rpc_find_file]
    never writes: the store, the files, the local node and the random
    generator are after the call what they were before, whatever the
    reply and also when the handler raises. *)
Theorem lookups_leave_data (sender : address) (nodeid key : bytes)
        (st : State RT) :
  same_data st (snd (rpc_ping digest sender nodeid st)) /\
  same_data st (snd (rpc_find_node digest sender nodeid key st)) /\
  same_data st (snd (rpc_find_value digest sender nodeid key st)) /\
  same_data st (snd (rpc_find_file digest text_decode sender nodeid key st)).
Proof.
  assert (Hnode : forall st0 : State RT,
             same_data st0 (snd (rpc_find_node digest sender nodeid key st0))).
  { intros st0. rewrite rpc_find_node_state.
    destruct nodeid; [apply same_data_refl | apply admitted_same_data]. }
  split; [|split; [|split]].
  - unfold rpc_ping. rewrite welcome_then. apply admitted_same_data.
  - apply Hnode.
  - rewrite rpc_find_value_state. cbn zeta.
    destruct (storage_get (storage st) key); try apply admitted_same_data.
    eapply same_data_trans; [apply admitted_same_data | apply Hnode].
  - rewrite rpc_find_file_run, find_file_try_run. apply admitted_same_data.
Qed.

(** X8.  No inbound handler evicts a contact or pushes to a third
    party: whatever [ping], [store], [rpc_file_store], [rpc_find_file],
    [find_node] or [find_value] adds to the trace is a store call to the
    sender's contact, for an entry the store held when the request
    arrived, or [add_contact] of that contact. *)
Theorem handlers_only_admit_sender (sender : address) (nodeid key : bytes)
        (value : pyval) (st : State RT) :
  let source := contact_of sender nodeid in
  only_admits source st (snd (rpc_ping digest sender nodeid st)) /\
  only_admits source st (snd (rpc_store digest sender nodeid key value st)) /\
  only_admits source st
    (snd (rpc_file_store digest text_encode sender nodeid key value st)) /\
  only_admits source st
    (snd (rpc_find_file digest text_decode sender nodeid key st)) /\
  only_admits source st (snd (rpc_find_node digest sender nodeid key st)) /\
  only_admits source st (snd (rpc_find_value digest sender nodeid key st)).
Proof.
  cbn zeta. set (source := contact_of sender nodeid).
  assert (Hnode : forall st0 : State RT,
             only_admits source st0 (snd (rpc_find_node digest sender nodeid key st0))).
  { intros st0. rewrite rpc_find_node_state.
    destruct nodeid; [apply only_admits_refl | apply admitted_only_admits]. }
  pose proof (admitted_only_admits source st) as Hadm.
  repeat split.
  - unfold rpc_ping. rewrite welcome_then. exact Hadm.
  - unfold rpc_store. rewrite welcome_then. exact Hadm.
  - rewrite rpc_file_store_state. subst source.
    destruct (file_store_try_frame key value
                (admitted digest (contact_of sender nodeid) st))
      as (fs & -> & _).
    exact Hadm.
  - rewrite rpc_find_file_run, find_file_try_run. exact Hadm.
  - apply Hnode.
  - rewrite rpc_find_value_state. cbn zeta.
    destruct (storage_get (storage st) key); try exact Hadm.
    eapply only_admits_trans; [apply admitted_storage | exact Hadm | apply Hnode].
Qed.

(** X9.  [rpc_store] changes the value of its key and of no other: a
    lookup in the store it leaves finds the new value under the key and
    what was there before under any other key.  The files are not
    touched. *)
Theorem rpc_store_lookup (sender : address) (nodeid key key' : bytes)
        (value : pyval) (st : State RT) :
  let st' := snd (rpc_store digest sender nodeid key value st) in
  fst (rpc_store digest sender nodeid key value st) = Ok true /\
  storage_lookup (storage st') key' =
    (if decide (key' = key) then Some value else storage_lookup (storage st) key') /\
  files st' = files st.
Proof.
  cbn zeta. unfold rpc_store. rewrite welcome_then.
  cbn [bind modify ret fst snd storage files set_storage].
  unfold bind, modify, ret. cbn [fst snd storage files set_storage].
  rewrite storage_lookup_set, admitted_storage, admitted_files.
  repeat split.
Qed.

(** X10.  A value other than [None] stored with [rpc_store] is what
    [rpc_find_value] replies for that key right afterwards, whoever
    asks. *)
Theorem store_then_find_value (sender sender' : address)
        (nodeid nodeid' key : bytes) (value : pyval) (st : State RT) :
  value <> VNone ->
  fst (rpc_find_value digest sender' nodeid' key
         (snd (rpc_store digest sender nodeid key value st)))
    = Ok (RValue value).
Proof.
  intros Hv. rewrite rpc_find_value_run. cbn zeta.
  unfold rpc_store at 1. rewrite welcome_then.
  unfold bind, modify, ret. cbn [fst snd storage set_storage].
  unfold storage_get. rewrite storage_lookup_set.
  destruct (decide (key = key)); [|contradiction].
  destruct value; [contradiction | reflexivity..].
Qed.

(** X14.  A [find_value] that misses admits its sender once: when the
    table knows the sender after [add_contact], the second admission,
    made by the [rpc_find_node] it falls through to, does nothing, and
    the state is the one a single [welcome_if_new] leaves. *)
Theorem rpc_find_value_miss_admits_once (sender : address) (nodeid key : bytes)
        (st : State RT) :
  storage_get (storage st) key = VNone ->
  is_new_node (add_contact (router st) (contact_of sender nodeid))
    (contact_of sender nodeid) = false ->
  snd (rpc_find_value digest sender nodeid key st) =
    snd (welcome_if_new digest (contact_of sender nodeid) st).
Proof.
  intros Hmiss Hknown. rewrite rpc_find_value_state, welcome_if_new_run.
  cbn zeta. rewrite Hmiss, rpc_find_node_state. cbn [snd].
  destruct nodeid as [|b nodeid]; [reflexivity|].
  apply admitted_known. rewrite admitted_router.
  destruct (is_new_node (router st) (contact_of sender (b :: nodeid))) eqn:Hnew;
    [exact Hknown | exact Hnew].
Qed.

(** X18.  [handle_call_response] never writes: whether it evicts the
    contact or admits it, the store, the files, the local node and the
    random generator are left as they were, and what it adds to the
    trace is one [remove_contact] of the contact on a failed result and
    an admission of the contact on a successful one. *)
Theorem handle_call_response_leaves_data {P : Type} (result : bool * P)
        (C : Node) (st : State RT) :
  let st' := snd (handle_call_response digest result C st) in
  same_data st st' /\
  (if fst result then only_admits C st st'
   else trace st' = trace st ++ [ERemoveContact C]).
Proof.
  cbn zeta. unfold handle_call_response.
  destruct (fst result); cbn [negb].
  - rewrite welcome_then. cbn [ret snd].
    split; [apply admitted_same_data | apply admitted_only_admits].
  - split; [repeat split | reflexivity].
Qed.

End Frames.

(** ** Blobs *)

Section BlobFacts.

Context {RT : Type} `{RoutingTable RT}.
Variable digest : bytes -> bytes.
Variable text_encode : string -> option bytes.
Variable text_decode : bytes -> option string.

Lemma rpc_file_store_fst (sender : address) (node_id key : bytes)
      (value : pyval) (st : State RT) :
  fst (rpc_file_store digest text_encode sender node_id key value st) =
    match value with
    | VBytes _ => Ok true
    | VStr s =>
        match text_encode s with
        | Some _ => Ok true
        | None => Raise UnicodeEncodeError
        end
    | _ => Raise TypeError
    end.
Proof.
  destruct value as [| b | z | s | b].
  1-3: apply rpc_file_store_other; exact I.
  - destruct (text_encode s) as [content|] eqn:Henc.
    + rewrite (rpc_file_store_str digest text_encode sender node_id key s content st Henc).
      reflexivity.
    + rewrite (rpc_file_store_unencodable digest text_encode sender node_id key s st Henc).
      reflexivity.
  - rewrite rpc_file_store_bytes. reflexivity.
Qed.

(** X11.  For a value an RPC can carry, [rpc_file_store] returns [True]
    exactly for a byte string and for a text the platform can encode;
    it raises [UnicodeEncodeError] for a text the platform cannot
    encode and [TypeError] for every other value.  The store of
    key/value pairs is not touched in any of these cases. *)
Theorem rpc_file_store_outcome (sender : address) (node_id key : bytes)
        (value : pyval) (st : State RT) :
  carried value ->
  fst (rpc_file_store digest text_encode sender node_id key value st) =
    match value with
    | VBytes _ => Ok true
    | VStr s =>
        match text_encode s with
        | Some _ => Ok true
        | None => Raise UnicodeEncodeError
        end
    | _ => Raise TypeError
    end /\
  storage (snd (rpc_file_store digest text_encode sender node_id key value st))
    = storage st.
Proof.
  intros _. split; [apply rpc_file_store_fst|].
  rewrite rpc_file_store_state.
  destruct (file_store_try_frame text_encode key value
              (admitted digest (contact_of sender node_id) st)) as (fs & -> & _).
  cbn [storage set_files]. apply admitted_storage.
Qed.


(** X13.  Blobs of different keys do not interfere: whatever
    [rpc_file_store] does under one key, also when it raises,
    [rpc_find_file] replies for any other key what it replied before. *)
Theorem rpc_file_store_other_key (sender sender' : address)
        (node_id node_id' key key' : bytes) (value : pyval) (st : State RT) :
  key' <> key ->
  fst (rpc_find_file digest text_decode sender' node_id' key'
         (snd (rpc_file_store digest text_encode sender node_id key value st)))
    = fst (rpc_find_file digest text_decode sender' node_id' key' st).
Proof.
  intros Hne. rewrite rpc_file_store_state.
  destruct (file_store_try_frame text_encode key value
              (admitted digest (contact_of sender node_id) st))
    as (fs & -> & Hfs).
  rewrite !rpc_find_file_run, !find_file_try_run, !admitted_files.
  cbn [fst files set_files].
  assert (Hk : kad_path key' <> kad_path key)
    by (intros Heq; apply Hne, kad_path_inj, Heq).
  assert (Ht : txt_path key' <> txt_path key)
    by (intros Heq; apply Hne, txt_path_inj, Heq).
  rewrite (Hfs (kad_path key') Hk (kad_path_neq_txt_path_any key' key)).
  rewrite (Hfs (txt_path key')
             (fun Heq => kad_path_neq_txt_path_any key key' (eq_sym Heq)) Ht).
  rewrite admitted_files. reflexivity.
Qed.

End BlobFacts.

(** ** Refresh targets, draw by draw *)

Lemma set_rng_pos_same {RT} (st : State RT) : set_rng_pos (rng_pos st) st = st.
Proof. destruct st. reflexivity. Qed.

Section RefreshFacts.

Context {RT : Type} `{RoutingTable RT}.

(** One turn of the loop of [get_refresh_ids] on a bucket with a valid
    range. *)
Lemma refresh_turn (b : KBucket) (ids : list bytes) (st : State RT) :
  valid_range b ->
  (let* n := randint (fst (range b)) (snd (range b)) in
   let* rid := to_bytes n 20 in
   ret (ids ++ [rid])) st =
    (Ok (ids ++ [refresh_id b (rng st (rng_pos st))]),
     set_rng_pos (S (rng_pos st)) st).
Proof.
  intros (Hlo & Hle & Hhi). unfold bind at 1.
  destruct (randint_run (fst (range b)) (snd (range b)) st Hle) as [-> Hn].
  unfold bind. rewrite to_bytes_run; [reflexivity|].
  change (256 ^ Z.of_nat 20) with (2 ^ 160). lia.
Qed.

(** The turns on a prefix of buckets with valid ranges. *)
Lemma refresh_prefix (good tail : list KBucket) (ids : list bytes) (st : State RT) :
  Forall valid_range good ->
  for_each (good ++ tail)
    (fun bucket ids =>
       let* n := randint (fst (range bucket)) (snd (range bucket)) in
       let* rid := to_bytes n 20 in
       ret (ids ++ [rid]))
    ids st =
  for_each tail
    (fun bucket ids =>
       let* n := randint (fst (range bucket)) (snd (range bucket)) in
       let* rid := to_bytes n 20 in
       ret (ids ++ [rid]))
    (ids ++ refresh_ids (rng st) (rng_pos st) good)
    (set_rng_pos (rng_pos st + length good) st).
Proof.
  intros Hvalid. revert ids st.
  induction Hvalid as [|b good Hb _ IH]; intros ids st.
  - cbn [app refresh_ids length]. rewrite app_nil_r, Nat.add_0_r, set_rng_pos_same.
    reflexivity.
  - cbn [app for_each]. unfold bind at 1. rewrite (refresh_turn b ids st Hb).
    rewrite IH. cbn [rng rng_pos set_rng_pos refresh_ids length].
    rewrite <- app_assoc, Nat.add_succ_r. reflexivity.
Qed.

(** X15.  With valid ranges [get_refresh_ids] takes exactly one draw
    per lonely bucket, in order, and makes the identifier of bucket [i]
    of draw [i] alone; apart from the position of the random generator
    the state is left as it was. *)
Theorem get_refresh_ids_draws (st : State RT) :
  Forall valid_range (lonely_buckets (router st)) ->
  get_refresh_ids st =
    (Ok (refresh_ids (rng st) (rng_pos st) (lonely_buckets (router st))),
     set_rng_pos (rng_pos st + length (lonely_buckets (router st))) st).
Proof.
  intros Hvalid. unfold get_refresh_ids, bind at 1, gets at 1.
  rewrite <- (app_nil_r (lonely_buckets (router st))) at 1.
  rewrite (refresh_prefix _ [] [] st Hvalid). reflexivity.
Qed.

(** X16.  A lonely bucket whose range is empty (low above high) makes
    [get_refresh_ids] raise [ValueError]: the identifiers drawn for the
    buckets before it are dropped, their draws stay consumed. *)
Theorem get_refresh_ids_empty_range (st : State RT)
        (good rest : list KBucket) (bad : KBucket) :
  lonely_buckets (router st) = good ++ bad :: rest ->
  Forall valid_range good ->
  snd (range bad) < fst (range bad) ->
  get_refresh_ids st =
    (Raise ValueError, set_rng_pos (rng_pos st + length good) st).
Proof.
  intros Hsplit Hvalid Hbad. unfold get_refresh_ids, bind at 1, gets at 1.
  rewrite Hsplit, (refresh_prefix good (bad :: rest) [] st Hvalid).
  cbn [for_each]. unfold bind at 1 2, randint.
  apply Z.leb_gt in Hbad. rewrite Hbad. reflexivity.
Qed.

(** X17.  A lonely bucket whose range leaves the 160-bit space makes
    [get_refresh_ids] raise [OverflowError] whenever the integer drawn
    for it does not fit 20 bytes; a range that ends at [2 ^ 160]
    itself is enough for that. *)
Theorem get_refresh_ids_overflow (st : State RT)
        (good rest : list KBucket) (bad : KBucket) :
  lonely_buckets (router st) = good ++ bad :: rest ->
  Forall valid_range good ->
  fst (range bad) <= snd (range bad) ->
  (let n := fst (range bad) +
            rng st (rng_pos st + length good)
              mod (snd (range bad) - fst (range bad) + 1) in
   n < 0 \/ 2 ^ 160 <= n) ->
  get_refresh_ids st =
    (Raise OverflowError, set_rng_pos (S (rng_pos st + length good)) st).
Proof.
  intros Hsplit Hvalid Hle Hout. cbn zeta in Hout.
  unfold get_refresh_ids, bind at 1, gets at 1.
  rewrite Hsplit, (refresh_prefix good (bad :: rest) [] st Hvalid).
  cbn [for_each]. unfold bind at 1 2.
  destruct (randint_run (fst (range bad)) (snd (range bad))
              (set_rng_pos (rng_pos st + length good) st) Hle) as [-> _].
  cbn [rng rng_pos set_rng_pos]. unfold bind at 1, to_bytes.
  change (256 ^ Z.of_nat 20) with (2 ^ 160).
  set (n := fst (range bad) + _) in *.
  assert (Hcheck : (n <? 0) || (2 ^ 160 <=? n) = true).
  { apply orb_true_iff. destruct Hout as [Hneg | Hbig];
      [left; apply Z.ltb_lt, Hneg | right; apply Z.leb_le, Hbig]. }
  rewrite Hcheck. reflexivity.
Qed.

End RefreshFacts.

(** ** The further properties on the flat example *)

(** The newcomer next to one known peer: one of the two entries is
    pushed. *)
Lemma welcome_if_new_call_order_witness :
  is_new_node (router Flat.peer_state) Flat.newcomer = true /\
  exists pushed,
    sublist pushed (storage Flat.peer_state) /\
    welcome_if_new Flat.digest Flat.newcomer Flat.peer_state =
      (Ok tt,
       set_router (add_contact (router Flat.peer_state) Flat.newcomer)
         (set_trace
            (trace Flat.peer_state ++ map (call_of Flat.newcomer) pushed
             ++ [EAddContact Flat.newcomer]) Flat.peer_state)).
Proof.
  assert (Hnew : is_new_node (router Flat.peer_state) Flat.newcomer = true)
    by reflexivity.
  split; [exact Hnew|].
  apply (welcome_if_new_call_order Flat.digest Flat.peer_state Flat.newcomer Hnew).
Defined.

(** The first contact a node ever sees is sent the whole store. *)
Lemma welcome_if_new_pushes_all_witness :
  is_new_node (router Flat.lone_state) Flat.newcomer = true /\
  (forall key value,
      In (key, value) (storage Flat.lone_state) ->
      find_neighbors (router Flat.lone_state) (key_node (Flat.digest key)) None = []) /\
  welcome_if_new Flat.digest Flat.newcomer Flat.lone_state =
    (Ok tt,
     set_router (add_contact (router Flat.lone_state) Flat.newcomer)
       (set_trace
          (trace Flat.lone_state ++ map (call_of Flat.newcomer) (storage Flat.lone_state)
           ++ [EAddContact Flat.newcomer]) Flat.lone_state)).
Proof.
  assert (Hnew : is_new_node (router Flat.lone_state) Flat.newcomer = true)
    by reflexivity.
  assert (Hnone : forall key value,
             In (key, value) (storage Flat.lone_state) ->
             find_neighbors (router Flat.lone_state) (key_node (Flat.digest key)) None
               = [])
    by (intros key value _; reflexivity).
  split; [exact Hnew|]. split; [exact Hnone|].
  apply (welcome_if_new_pushes_all Flat.digest Flat.lone_state Flat.newcomer
           Hnew Hnone).
Defined.

(** The known peer is closer to the key [15] than the local node. *)
Lemma welcome_if_new_not_closest_witness :
  is_new_node (router Flat.peer_state) Flat.newcomer = true /\
  In Flat.peer
     (find_neighbors (router Flat.peer_state) (key_node (Flat.digest [x15])) None) /\
  distance_to Flat.peer (key_node (Flat.digest [x15]))
    <= distance_to (source_node Flat.peer_state) (key_node (Flat.digest [x15])) /\
  exists evs,
    trace (snd (welcome_if_new Flat.digest Flat.newcomer Flat.peer_state))
      = trace Flat.peer_state ++ evs /\
    ~ In (ECallStore Flat.newcomer [x15] (VBytes [x62])) evs.
Proof.
  assert (Hnew : is_new_node (router Flat.peer_state) Flat.newcomer = true)
    by reflexivity.
  assert (Hin : In Flat.peer
                  (find_neighbors (router Flat.peer_state)
                     (key_node (Flat.digest [x15])) None))
    by (left; reflexivity).
  assert (Hclose : distance_to Flat.peer (key_node (Flat.digest [x15]))
                   <= distance_to (source_node Flat.peer_state)
                        (key_node (Flat.digest [x15])))
    by (vm_compute; discriminate).
  split; [exact Hnew|]. split; [exact Hin|]. split; [exact Hclose|].
  apply (welcome_if_new_not_closest Flat.digest Flat.peer_state Flat.newcomer
           [x15] (VBytes [x62]) Flat.peer Hnew
           (flat_neighbors_ascending _ _ _) Hin Hclose).
Defined.

(** The newcomer is farther from the key [15] than the known peer. *)
Lemma welcome_if_new_newcomer_too_far_witness :
  is_new_node (router Flat.peer_state) Flat.newcomer = true /\
  find_neighbors (router Flat.peer_state) (key_node (Flat.digest [x15])) None <> [] /\
  exists evs,
    trace (snd (welcome_if_new Flat.digest Flat.newcomer Flat.peer_state))
      = trace Flat.peer_state ++ evs /\
    ~ In (ECallStore Flat.newcomer [x15] (VBytes [x62])) evs.
Proof.
  assert (Hnew : is_new_node (router Flat.peer_state) Flat.newcomer = true)
    by reflexivity.
  assert (Hsome : find_neighbors (router Flat.peer_state)
                    (key_node (Flat.digest [x15])) None <> [])
    by (vm_compute; discriminate).
  assert (Hfar : forall n,
             In n (find_neighbors (router Flat.peer_state)
                     (key_node (Flat.digest [x15])) None) ->
             distance_to n (key_node (Flat.digest [x15]))
               <= distance_to Flat.newcomer (key_node (Flat.digest [x15]))).
  { intros n [<- | []]. vm_compute. discriminate. }
  split; [exact Hnew|]. split; [exact Hsome|].
  apply (welcome_if_new_newcomer_too_far Flat.digest Flat.peer_state Flat.newcomer
           [x15] (VBytes [x62]) Hnew Hsome Hfar).
Defined.

(** The flat table knows the newcomer once it is added. *)
Lemma welcome_if_new_twice_witness :
  is_new_node (add_contact (router Flat.peer_state) Flat.newcomer) Flat.newcomer
    = false /\
  (welcome_if_new Flat.digest Flat.newcomer >> welcome_if_new Flat.digest Flat.newcomer)
    Flat.peer_state
    = welcome_if_new Flat.digest Flat.newcomer Flat.peer_state.
Proof.
  assert (Hknown : is_new_node (add_contact (router Flat.peer_state) Flat.newcomer)
                     Flat.newcomer = false)
    by reflexivity.
  split; [exact Hknown|].
  apply (welcome_if_new_twice Flat.digest Flat.peer_state Flat.newcomer Hknown).
Defined.

(** A value stored by one sender and asked for by another. *)
Lemma store_then_find_value_witness :
  VBytes [x63] <> VNone /\
  fst (rpc_find_value Flat.digest ("10.0.0.9"%string, 9000) [x18] [x20]
         (snd (rpc_store Flat.digest Flat.newcomer_addr [x12] [x20] (VBytes [x63])
                 Flat.peer_state)))
    = Ok (RValue (VBytes [x63])).
Proof.
  assert (Hv : VBytes [x63] <> VNone) by discriminate.
  split; [exact Hv|].
  apply (store_then_find_value Flat.digest Flat.newcomer_addr
           ("10.0.0.9"%string, 9000) [x12] [x18] [x20] (VBytes [x63])
           Flat.peer_state Hv).
Defined.


(** A blob stored under the key [10] and one looked up under [11]. *)
Lemma rpc_file_store_other_key_witness :
  [x11] <> [x10] /\
  fst (rpc_find_file Flat.digest Flat.text_decode Flat.newcomer_addr [x12] [x11]
         (snd (rpc_file_store Flat.digest Flat.text_encode Flat.newcomer_addr
                 [x12] [x10] (VBytes [x01]) Flat.lone_state)))
    = fst (rpc_find_file Flat.digest Flat.text_decode Flat.newcomer_addr [x12] [x11]
             Flat.lone_state).
Proof.
  assert (Hne : [x11] <> [x10]) by discriminate.
  split; [exact Hne|].
  apply (rpc_file_store_other_key Flat.digest Flat.text_encode Flat.text_decode
           Flat.newcomer_addr Flat.newcomer_addr [x12] [x12] [x10] [x11]
           (VBytes [x01]) Flat.lone_state Hne).
Defined.

(** A [find_value] for a key the store does not hold. *)
Lemma rpc_find_value_miss_admits_once_witness :
  storage_get (storage Flat.peer_state) [x13] = VNone /\
  is_new_node (add_contact (router Flat.peer_state)
                 (contact_of Flat.newcomer_addr [x12]))
    (contact_of Flat.newcomer_addr [x12]) = false /\
  snd (rpc_find_value Flat.digest Flat.newcomer_addr [x12] [x13] Flat.peer_state) =
    snd (welcome_if_new Flat.digest (contact_of Flat.newcomer_addr [x12])
           Flat.peer_state).
Proof.
  assert (Hmiss : storage_get (storage Flat.peer_state) [x13] = VNone)
    by reflexivity.
  assert (Hknown : is_new_node (add_contact (router Flat.peer_state)
                                  (contact_of Flat.newcomer_addr [x12]))
                     (contact_of Flat.newcomer_addr [x12]) = false)
    by reflexivity.
  split; [exact Hmiss|]. split; [exact Hknown|].
  apply (rpc_find_value_miss_admits_once Flat.digest Flat.newcomer_addr [x12] [x13]
           Flat.peer_state Hmiss Hknown).
Defined.

(** The two stale buckets of the flat example, draw by draw. *)
Lemma get_refresh_ids_draws_witness :
  Forall valid_range (lonely_buckets (router Flat.stale_state)) /\
  get_refresh_ids Flat.stale_state =
    (Ok (refresh_ids (rng Flat.stale_state) (rng_pos Flat.stale_state)
           (lonely_buckets (router Flat.stale_state))),
     set_rng_pos
       (rng_pos Flat.stale_state + length (lonely_buckets (router Flat.stale_state)))
       Flat.stale_state).
Proof.
  assert (Hvalid : Forall valid_range (lonely_buckets (router Flat.stale_state))).
  { repeat constructor; cbn; lia. }
  split; [exact Hvalid|].
  apply (get_refresh_ids_draws Flat.stale_state Hvalid).
Defined.

(** The second of three stale buckets has the range [(9, 3)]. *)
Lemma get_refresh_ids_empty_range_witness :
  lonely_buckets (router empty_range_state) =
    [mkKBucket (0, 127) [] 100] ++ mkKBucket (9, 3) [] 200
      :: [mkKBucket (128, 255) [] 300] /\
  Forall valid_range [mkKBucket (0, 127) [] 100] /\
  snd (range (mkKBucket (9, 3) [] 200)) < fst (range (mkKBucket (9, 3) [] 200)) /\
  get_refresh_ids empty_range_state =
    (Raise ValueError,
     set_rng_pos (rng_pos empty_range_state + 1) empty_range_state).
Proof.
  assert (Hsplit : lonely_buckets (router empty_range_state) =
                   [mkKBucket (0, 127) [] 100] ++ mkKBucket (9, 3) [] 200
                     :: [mkKBucket (128, 255) [] 300])
    by reflexivity.
  assert (Hvalid : Forall valid_range [mkKBucket (0, 127) [] 100]).
  { repeat constructor; cbn; lia. }
  assert (Hbad : snd (range (mkKBucket (9, 3) [] 200))
                 < fst (range (mkKBucket (9, 3) [] 200)))
    by (cbn; lia).
  split; [exact Hsplit|]. split; [exact Hvalid|]. split; [exact Hbad|].
  apply (get_refresh_ids_empty_range empty_range_state _ _ _ Hsplit Hvalid Hbad).
Defined.

(** One bucket with the range [(0, 2 ^ 160)], and the draw [2 ^ 160]. *)
Lemma get_refresh_ids_overflow_witness :
  lonely_buckets (router wide_range_state) =
    [] ++ mkKBucket (0, 2 ^ 160) [] 100 :: [] /\
  get_refresh_ids wide_range_state =
    (Raise OverflowError, set_rng_pos 1 wide_range_state).
Proof.
  assert (Hsplit : lonely_buckets (router wide_range_state) =
                   [] ++ mkKBucket (0, 2 ^ 160) [] 100 :: [])
    by reflexivity.
  split; [exact Hsplit|].
  apply (get_refresh_ids_overflow wide_range_state [] [] _ Hsplit).
  - constructor.
  - cbn. lia.
  - right. vm_compute. discriminate.
Defined.

(** A text the ASCII platform cannot encode, stored as a blob. *)
Lemma rpc_file_store_outcome_witness :
  carried (VStr e_acute) /\
  Flat.text_encode e_acute = None /\
  fst (rpc_file_store Flat.digest Flat.text_encode Flat.newcomer_addr [x12] [x10]
         (VStr e_acute) Flat.lone_state) = Raise UnicodeEncodeError.
Proof.
  assert (Hc : carried (VStr e_acute)) by exact I.
  split; [exact Hc|]. split; [reflexivity|].
  pose proof (rpc_file_store_outcome Flat.digest Flat.text_encode
                Flat.newcomer_addr [x12] [x10] (VStr e_acute) Flat.lone_state Hc)
    as [Hout _].
  exact Hout.
Defined.
